(** * BICLE ledger core: a shallow embedding of [src/Bicle/bicle.py]

    The development follows the layout of the Python module: text and
    exceptions, the SHA-256 digest that [hashlib] provides, the
    cryptographic helpers ([create_iHash], [compute_block_hash],
    [create_genesis_block]), the ledger ([verify_chain]), block
    construction ([build_block_from_items]), the submission handler
    ([submit]), the load-time pruning of [init_storage], and then the
    statistics ([get_stats] and the rows of [/stats]), the lookup of
    [/block], the candidate list of [/mine] and the items of
    [fetch_rss_items].

    The three module-level globals [sent_news], [pending] and [blocks]
    are threaded as an explicit [Storage] record; the two dictionaries
    are finite maps, the ledger is a list.  File persistence
    ([load_json]/[save_json]) swallows its own failures and never feeds
    back into the in-memory state, so it does not appear in the model;
    the chat replies, the feed parser and the clock are inputs. *)

From Stdlib Require Import NArith ZArith Ascii String.
From stdpp Require Import base option list sorting gmap.

Local Open Scope N_scope.

(** ** Python text and exceptions *)

(** A Python [str] is a sequence of Unicode code points. *)
Definition pystr : Type := list N.

(** A value that is either [None] or a [str]. *)
Definition pyval : Type := option pystr.

(** Reading an ASCII literal as a [str]. *)
Definition py (s : string) : pystr :=
  map N_of_ascii (list_ascii_of_string s).

Inductive exn : Type :=
| KeyError
| TypeError
| UnicodeEncodeError.

Inductive result (A : Type) : Type :=
| Ok (a : A)
| Raise (e : exn).
Arguments Ok {A} a.
Arguments Raise {A} e.

#[global] Instance result_ret : MRet result := fun A a => Ok a.

#[global] Instance result_bind : MBind result := fun A B k r =>
  match r with
  | Ok a => k a
  | Raise e => Raise e
  end.

(** [v or ""] on a value that is [None] or a [str]. *)
Definition or_empty (v : pyval) : pystr :=
  match v with
  | Some s => s
  | None => []
  end.

(** [v[:n]]: slicing a [str] keeps its first [n] code points; slicing
    [None] raises [TypeError]. *)
Definition slice_to (n : nat) (v : pyval) : result pyval :=
  match v with
  | Some s => Ok (Some (take n s))
  | None => Raise TypeError
  end.

(** [s.encode('utf-8')].  Lone surrogates (and anything above U+10FFFF,
    which no [str] holds) are rejected, as CPython does. *)
Definition utf8_char (c : N) : option (list N) :=
  if c <? 0x80 then Some [c]
  else if c <? 0x800 then
    Some [N.lor 0xC0 (N.shiftr c 6); N.lor 0x80 (N.land c 0x3F)]
  else if c <? 0x10000 then
    if (0xD800 <=? c) && (c <=? 0xDFFF) then None
    else Some [N.lor 0xE0 (N.shiftr c 12);
               N.lor 0x80 (N.land (N.shiftr c 6) 0x3F);
               N.lor 0x80 (N.land c 0x3F)]
  else if c <? 0x110000 then
    Some [N.lor 0xF0 (N.shiftr c 18);
          N.lor 0x80 (N.land (N.shiftr c 12) 0x3F);
          N.lor 0x80 (N.land (N.shiftr c 6) 0x3F);
          N.lor 0x80 (N.land c 0x3F)]
  else None.

Fixpoint utf8_encode (s : pystr) : option (list N) :=
  match s with
  | [] => Some []
  | c :: s' =>
      match utf8_char c, utf8_encode s' with
      | Some bs, Some rest => Some (bs ++ rest)
      | _, _ => None
      end
  end.

(** ** SHA-256 (FIPS 180-4), as [hashlib.sha256] computes it

    Words are 32-bit values held in [N]; every addition is reduced
    modulo 2^32 and every rotation masks the bits shifted out. *)
Module SHA256.

Definition mask32 : N := 0xffffffff.

Definition add32 (a b : N) : N := N.land (a + b) mask32.

Definition rotr (n x : N) : N :=
  N.lor (N.shiftr x n) (N.land (N.shiftl x (32 - n)) mask32).

Definition not32 (x : N) : N := N.lxor x mask32.

Definition Ch (x y z : N) : N :=
  N.lxor (N.land x y) (N.land (not32 x) z).

Definition Maj (x y z : N) : N :=
  N.lxor (N.lxor (N.land x y) (N.land x z)) (N.land y z).

Definition Sigma0 (x : N) : N :=
  N.lxor (N.lxor (rotr 2 x) (rotr 13 x)) (rotr 22 x).

Definition Sigma1 (x : N) : N :=
  N.lxor (N.lxor (rotr 6 x) (rotr 11 x)) (rotr 25 x).

Definition sigma0 (x : N) : N :=
  N.lxor (N.lxor (rotr 7 x) (rotr 18 x)) (N.shiftr x 3).

Definition sigma1 (x : N) : N :=
  N.lxor (N.lxor (rotr 17 x) (rotr 19 x)) (N.shiftr x 10).

(** The round constants and the initial hash value are not tabulated:
    FIPS 180-4 defines them as the first 32 bits of the fractional parts
    of the cube roots, respectively square roots, of the first primes. *)
Definition is_prime (n : N) : bool :=
  forallb (fun d => negb (n mod d =? 0)) (map N.of_nat (seq 2 (N.to_nat n - 2))).

Definition first_primes (k : nat) : list N :=
  take k (filter (fun n => is_prime n = true) (map N.of_nat (seq 2 400))).

(** Integer cube root, one bit at a time from bit [k - 1] down. *)
Fixpoint cbrt_bits (k : nat) (n r : N) : N :=
  match k with
  | O => r
  | S k' =>
      let r' := N.lor r (N.shiftl 1 (N.of_nat k')) in
      if r' * r' * r' <=? n then cbrt_bits k' n r' else cbrt_bits k' n r
  end.

Definition K : list N :=
  Eval vm_compute in
    map (fun p => N.land (cbrt_bits 36 (N.shiftl p 96) 0) mask32)
        (first_primes 64).

Definition H0 : list N :=
  Eval vm_compute in
    map (fun p => N.land (N.sqrt (N.shiftl p 64)) mask32) (first_primes 8).

(** Big-endian bytes of the low [8 * n] bits of [x]. *)
Fixpoint be_bytes (n : nat) (x : N) : list N :=
  match n with
  | O => []
  | S n' => N.land (N.shiftr x (8 * N.of_nat n')) 0xff :: be_bytes n' x
  end.

(** Padding: a 1 bit, zeros up to 56 modulo 64, the bit length on 64 bits. *)
Definition pad (msg : list N) : list N :=
  let len := N.of_nat (length msg) in
  let zeros := N.to_nat ((55 + 64 - len mod 64) mod 64) in
  msg ++ 0x80 :: replicate zeros 0 ++ be_bytes 8 (8 * len).

(** Big-endian packing of a byte string into 32-bit words. *)
Fixpoint words (bs : list N) : list N :=
  match bs with
  | b0 :: b1 :: b2 :: b3 :: rest =>
      N.lor (N.shiftl b0 24) (N.lor (N.shiftl b1 16) (N.lor (N.shiftl b2 8) b3))
      :: words rest
  | _ => []
  end.

(** The message schedule, newest word first: [rw] holds W[t-1], W[t-2], ... *)
Fixpoint schedule (n : nat) (rw : list N) : list N :=
  match n with
  | O => rw
  | S n' =>
      let w := add32 (add32 (sigma1 (nth 1 rw 0)) (nth 6 rw 0))
                     (add32 (sigma0 (nth 14 rw 0)) (nth 15 rw 0)) in
      schedule n' (w :: rw)
  end.

Definition round (s : list N) (kw : N * N) : list N :=
  match s with
  | [a; b; c; d; e; f; g; h] =>
      let t1 := add32 (add32 (add32 h (Sigma1 e)) (Ch e f g))
                      (add32 (fst kw) (snd kw)) in
      let t2 := add32 (Sigma0 a) (Maj a b c) in
      [add32 t1 t2; a; b; c; add32 d t1; e; f; g]
  | _ => s
  end.

Definition compress (h : list N) (block : list N) : list N :=
  let w := rev (schedule 48 (rev block)) in
  zip_with add32 h (fold_left round (zip K w) h).

(** One compression per 16-word block. *)
Fixpoint blocks_fold (n : nat) (h : list N) (ws : list N) : list N :=
  match n with
  | O => h
  | S n' =>
      match ws with
      | [] => h
      | _ => blocks_fold n' (compress h (take 16 ws)) (drop 16 ws)
      end
  end.

Definition digest (msg : list N) : list N :=
  let ws := words (pad msg) in
  flat_map (be_bytes 4) (blocks_fold (length ws) H0 ws).

Definition hex_digit (d : N) : N :=
  if d <? 10 then 48 + d else 87 + d.

(** [hexdigest()]: two lower-case hexadecimal digits per byte. *)
Definition hexdigest (msg : list N) : pystr :=
  flat_map (fun b => [hex_digit (N.shiftr b 4); hex_digit (N.land b 0xf)])
           (digest msg).

End SHA256.

(** [hashlib.sha256(s.encode('utf-8')).hexdigest()] *)
Definition sha256_hex (s : pystr) : result pystr :=
  match utf8_encode s with
  | Some bs => Ok (SHA256.hexdigest bs)
  | None => Raise UnicodeEncodeError
  end.

(** ** Ordering of text

    Python compares two [str] values code point by code point; a proper
    prefix is smaller.  [str_le a b] is [a <= b]. *)
Fixpoint str_le (a b : pystr) : bool :=
  match a, b with
  | [], _ => true
  | _ :: _, [] => false
  | x :: a', y :: b' =>
      if x <? y then true
      else if y <? x then false
      else str_le a' b'
  end.

Definition pystr_le : relation pystr := fun a b => str_le a b = true.

#[global] Instance pystr_le_dec : RelDecision pystr_le.
Proof. intros a b. unfold pystr_le. apply _. Defined.

(** [sorted(l)] on a list of [str]: a stable sort by [<=]. *)
Definition sorted (l : list pystr) : list pystr := merge_sort pystr_le l.

(** [("".join(l))] *)
Definition join (l : list pystr) : pystr := concat l.

(** ** Data model *)

(** A candidate item is a dictionary; each of the keys the builder reads
    may be absent ([None]), or hold [None] or a [str]. *)
Record Item : Type := mkItem {
  i_title : option pyval;
  i_link : option pyval;
  i_source : option pyval;
  i_published : option pyval;
  i_summary : option pyval
}.

(** An entry of a block's [news] list. *)
Record Entry : Type := mkEntry {
  title : pyval;
  link : pyval;
  source : pyval;
  published : pyval;
  summary : pyval;
  iHash : pystr
}.

Record Block : Type := mkBlock {
  block_number : Z;
  timestamp : pystr;
  news : list Entry;
  blockhash : pystr;
  previous : pyval
}.

(** A value of the [pending] dictionary. *)
Record PendingEntry : Type := mkPending {
  p_title : pyval;
  p_link : pyval;
  p_source : pyval;
  p_published : pyval;
  p_submitter : pystr;
  p_added_at : pystr;
  p_iHash : pystr
}.

(** The module's global storage. *)
Record Storage : Type := mkStorage {
  sent_news : gmap pyval pystr;
  pending : gmap pyval PendingEntry;
  blocks : list Block
}.

(** [d[k]] raises [KeyError] when the key is absent. *)
Definition getitem (f : option pyval) : result pyval :=
  match f with
  | Some v => Ok v
  | None => Raise KeyError
  end.

(** [d.get(k, '')] *)
Definition get_default (f : option pyval) : pyval :=
  match f with
  | Some v => v
  | None => Some []
  end.

(** ** Cryptographic functions *)

Definition create_iHash (title link source published : pyval) : result pystr :=
  let data := or_empty title ++ or_empty link ++ or_empty source
              ++ or_empty published in
  sha256_hex data.

Definition compute_block_hash (iHashes : list pystr) : result pystr :=
  let sorted_hashes := sorted iHashes in
  let concat := join sorted_hashes in
  sha256_hex concat.

Definition genesis_title : pystr :=
  py "The Guardian 05/Nov/2025 - on the brink of a financial crisis for AIs in companies".
Definition genesis_link : pystr :=
  py "https://www.theguardian.com/business/2025/nov/05/global-stock-markets-fall-sharply-over-ai-bubble-fears".
Definition genesis_source : pystr := py "The Guardian".
Definition genesis_published : pystr := py "2025-11-05".
Definition genesis_summary : pystr :=
  py "Global stock markets fall sharply amid fears of an AI-driven financial bubble collapse.".

Definition create_genesis_block : result Block :=
  ihash ← sha256_hex (genesis_title ++ genesis_link ++ genesis_source
                      ++ genesis_published);
  bh ← sha256_hex ihash;
  Ok {| block_number := 0;
        timestamp := py "2025-11-05T11:20:00Z";
        news := [ {| title := Some genesis_title;
                     link := Some genesis_link;
                     source := Some genesis_source;
                     published := Some genesis_published;
                     summary := Some genesis_summary;
                     iHash := ihash |} ];
        blockhash := bh;
        previous := None |}.

(** ** Blockchain functions *)

(** The loop of [verify_chain]: [prev] is [blocks[i-1]] and the head of
    the list is [blocks[i]]. *)
Fixpoint verify_from (prev : Block) (rest : list Block) : result bool :=
  match rest with
  | [] => Ok true
  | b :: rest' =>
      if decide (previous b ≠ Some (blockhash prev)) then Ok false
      else
        recalculated ← compute_block_hash (map iHash (news b));
        if decide (blockhash b ≠ recalculated) then Ok false
        else verify_from b rest'
  end.

Definition verify_chain (blocks : list Block) : result bool :=
  match blocks with
  | [] => Ok true
  | g :: rest => verify_from g rest
  end.

(** ** Block construction *)

(** The selection loop of [build_block_from_items]; [selected] and
    [iHashes] are the two accumulators, a recursive call on [rest] is
    [continue] and returning the accumulators is [break].  The source
    tests [link in sent_news] twice in a row; the second test repeats
    the first and appears once here. *)
Fixpoint select_items (sent : gmap pyval pystr) (max_news : Z)
    (items : list Item) (selected : list Entry) (iHashes : list pystr)
    : result (list Entry * list pystr) :=
  match items with
  | [] => Ok (selected, iHashes)
  | it :: rest =>
      lnk ← getitem (i_link it);
      match sent !! lnk with
      | Some _ => select_items sent max_news rest selected iHashes
      | None =>
          t ← getitem (i_title it);
          s ← getitem (i_source it);
          p ← getitem (i_published it);
          ih ← create_iHash t lnk s p;
          if decide (ih ∈ iHashes) then
            select_items sent max_news rest selected iHashes
          else
            t280 ← slice_to 280 (get_default (i_title it));
            s300 ← slice_to 300 (get_default (i_summary it));
            let entry := {| title := t280;
                            link := lnk;
                            source := get_default (i_source it);
                            published := get_default (i_published it);
                            summary := s300;
                            iHash := ih |} in
            let selected' := selected ++ [entry] in
            let iHashes' := iHashes ++ [ih] in
            if decide (max_news ≤ Z.of_nat (length selected'))%Z
            then Ok (selected', iHashes')
            else select_items sent max_news rest selected' iHashes'
      end
  end.

(** One turn of the storage update loop: [sent_news[n['link']] = timestamp]
    and the removal of the link from [pending] when it is there. *)
Definition mark_sent (ts : pystr)
    (sp : gmap pyval pystr * gmap pyval PendingEntry) (n : Entry)
    : gmap pyval pystr * gmap pyval PendingEntry :=
  (<[link n := ts]> sp.1,
   match sp.2 !! link n with
   | Some _ => delete (link n) sp.2
   | None => sp.2
   end).

(** [build_block_from_items(items, max_news)].  [now] is the text of
    [datetime.now(timezone.utc).replace(microsecond=0).isoformat()].
    Every exception is raised before the first assignment to the
    storage, so a raise leaves the storage as it was. *)
Definition build_block_from_items (items : list Item) (max_news : Z)
    (now : pystr) (st : Storage) : result (option Block * Storage) :=
  '(selected, iHashes) ← select_items (sent_news st) max_news items [] [];
  match selected with
  | [] => Ok (None, st)
  | _ :: _ =>
      let number := (Z.of_nat (length (blocks st)) + 1)%Z in
      bh ← compute_block_hash iHashes;
      let block := {| block_number := number;
                      timestamp := now;
                      news := selected;
                      blockhash := bh;
                      previous := blockhash <$> last (blocks st) |} in
      let sp := fold_left (mark_sent now) selected (sent_news st, pending st) in
      Ok (Some block,
          {| sent_news := sp.1; pending := sp.2;
             blocks := blocks st ++ [block] |})
  end.

(** ** Submission *)

(** The three replies of the [/submit] handler once it has a link. *)
Inductive submit_reply : Type :=
| AlreadyBroadcast          (* "[ERROR] News already broadcasted." *)
| AlreadyPending            (* "[WARN] News already in pending queue." *)
| Submitted (ih : pystr).   (* "[SUCCESS] News submitted by ..." *)

(** [submit], from the creation of the iHash on.  [title], [source] and
    [published] are what the handler extracted for the link, [user] the
    submitter and [now] the text of [datetime.now(timezone.utc).isoformat()]. *)
Definition submit (lnk : pystr) (title source published : pyval)
    (user now : pystr) (st : Storage) : result (submit_reply * Storage) :=
  ih ← create_iHash title (Some lnk) source published;
  match sent_news st !! Some lnk with
  | Some _ => Ok (AlreadyBroadcast, st)
  | None =>
      match pending st !! Some lnk with
      | Some _ => Ok (AlreadyPending, st)
      | None =>
          let entry := {| p_title := title; p_link := Some lnk;
                          p_source := source; p_published := published;
                          p_submitter := user; p_added_at := now;
                          p_iHash := ih |} in
          Ok (Submitted ih,
              {| sent_news := sent_news st;
                 pending := <[Some lnk := entry]> (pending st);
                 blocks := blocks st |})
      end
  end.

(** ** Storage initialisation *)

(** [init_storage]: [loaded] holds what the three [load_json] calls
    returned and [cutoff] is the text of
    [(datetime.now() - timedelta(days=30)).isoformat()].  The history is
    filtered by [v >= cutoff], a comparison of two [str] values; a
    genesis block is appended when no block was loaded. *)
Definition init_storage (loaded : Storage) (cutoff : pystr) : Storage :=
  let sent := filter (fun kv => pystr_le cutoff kv.2) (sent_news loaded) in
  let blocks :=
    match blocks loaded with
    | [] =>
        match create_genesis_block with
        | Ok genesis => [genesis]
        | Raise _ => []
        end
    | _ :: _ => blocks loaded
    end in
  {| sent_news := sent; pending := pending loaded; blocks := blocks |}.

(** ** The clock

    [datetime], as far as [init_storage] and the builder use it: the
    proleptic Gregorian calendar of CPython's [datetime] module, the
    subtraction of a number of days, and [isoformat].  Python's [//] and
    [%] are [Z.div] and [Z.modulo]. *)
Module Datetime.

Local Open Scope Z_scope.

Record datetime : Type := mkDatetime {
  year : Z;
  month : Z;
  day : Z;
  hour : Z;
  minute : Z;
  second : Z;
  microsecond : Z
}.

Definition is_leap (y : Z) : bool :=
  (y mod 4 =? 0) && (negb (y mod 100 =? 0) || (y mod 400 =? 0)).

(** Days before January 1st of [y]. *)
Definition days_before_year (y : Z) : Z :=
  let y' := y - 1 in y' * 365 + y' / 4 - y' / 100 + y' / 400.

Definition days_in_month (y m : Z) : Z :=
  if m =? 2 then (if is_leap y then 29 else 28)
  else if (m =? 4) || (m =? 6) || (m =? 9) || (m =? 11) then 30
  else 31.

(** Days of the year [y] before the first day of month [m]. *)
Definition days_before_month (y m : Z) : Z :=
  nth (Z.to_nat m) [0; 0; 31; 59; 90; 120; 151; 181; 212; 243; 273; 304; 334] 0
  + (if (2 <? m) && is_leap y then 1 else 0).

(** [date.toordinal()]: January 1st of year 1 is day 1. *)
Definition ymd2ord (y m d : Z) : Z :=
  days_before_year y + days_before_month y m + d.

(** [date.fromordinal(n)]: year, month and day of the day numbered [n]. *)
Definition ord2ymd (n : Z) : Z * Z * Z :=
  let n := n - 1 in
  let n400 := n / 146097 in let n := n mod 146097 in
  let n100 := n / 36524 in let n := n mod 36524 in
  let n4 := n / 1461 in let n := n mod 1461 in
  let n1 := n / 365 in let n := n mod 365 in
  let y := n400 * 400 + 1 + n100 * 100 + n4 * 4 + n1 in
  if (n1 =? 4) || (n100 =? 4) then (y - 1, 12, 31)
  else
    let leapyear := (n1 =? 3) && (negb (n4 =? 24) || (n100 =? 3)) in
    let m := Z.shiftr (n + 50) 5 in
    let preceding :=
      days_before_month 1 m + (if (2 <? m) && leapyear then 1 else 0) in
    if n <? preceding then
      let m' := m - 1 in
      let preceding' :=
        preceding - (days_in_month 1 m'
                     + (if (m' =? 2) && leapyear then 1 else 0)) in
      (y, m', n - preceding' + 1)
    else (y, m, n - preceding + 1).

Definition us_per_day : Z := 86400 * 1000000.

(** Microseconds from the start of day 0 to the instant the fields name. *)
Definition to_micro (d : datetime) : Z :=
  ymd2ord (year d) (month d) (day d) * us_per_day
  + ((hour d * 60 + minute d) * 60 + second d) * 1000000 + microsecond d.

Definition of_micro (us : Z) : datetime :=
  let '(y, m, d) := ord2ymd (us / us_per_day) in
  let t := us mod us_per_day in
  {| year := y; month := m; day := d;
     hour := t / 3600000000;
     minute := t / 60000000 mod 60;
     second := t / 1000000 mod 60;
     microsecond := t mod 1000000 |}.

(** [d - timedelta(days=n)] *)
Definition sub_days (d : datetime) (n : Z) : datetime :=
  of_micro (to_micro d - n * us_per_day).

(** [d.replace(microsecond=0)] *)
Definition replace_microsecond_0 (d : datetime) : datetime :=
  {| year := year d; month := month d; day := day d; hour := hour d;
     minute := minute d; second := second d; microsecond := 0 |}.

(** ["%0wd" % n]: [n] in decimal on [w] digits. *)
Fixpoint digits (w : nat) (n : Z) : pystr :=
  match w with
  | O => []
  | S w' => digits w' (n / 10) ++ [Z.to_N (48 + n mod 10)]
  end.

(** [d.isoformat()] of a naive [datetime]: the microseconds are written
    only when they are not zero. *)
Definition isoformat (d : datetime) : pystr :=
  digits 4 (year d) ++ py "-" ++ digits 2 (month d) ++ py "-"
  ++ digits 2 (day d) ++ py "T" ++ digits 2 (hour d) ++ py ":"
  ++ digits 2 (minute d) ++ py ":" ++ digits 2 (second d)
  ++ (if microsecond d =? 0 then [] else py "." ++ digits 6 (microsecond d)).

(** [d.isoformat()] of a [datetime] aware of [timezone.utc]. *)
Definition isoformat_utc (d : datetime) : pystr :=
  isoformat d ++ py "+00:00".

(** The instant of 1970-01-01T00:00:00 UTC. *)
Definition epoch : Z := ymd2ord 1970 1 1 * us_per_day.

End Datetime.

(** A reading of the host's clock: the time in microseconds since the
    epoch, and the offset of the host's local time from UTC, in
    seconds. *)
Record Clock : Type := mkClock {
  posix_us : Z;
  utcoffset : Z
}.

(** [datetime.now()]: the naive local time. *)
Definition now_local (c : Clock) : Datetime.datetime :=
  Datetime.of_micro (Datetime.epoch + posix_us c + utcoffset c * 1000000)%Z.

(** [datetime.now(timezone.utc)] *)
Definition now_utc (c : Clock) : Datetime.datetime :=
  Datetime.of_micro (Datetime.epoch + posix_us c)%Z.

(** [(datetime.now() - timedelta(days=30)).isoformat()], the cutoff of
    [init_storage]. *)
Definition cutoff_text (c : Clock) : pystr :=
  Datetime.isoformat (Datetime.sub_days (now_local c) 30).

(** [datetime.now(timezone.utc).replace(microsecond=0).isoformat()], the
    timestamp of [build_block_from_items]. *)
Definition stamp_text (c : Clock) : pystr :=
  Datetime.isoformat_utc (Datetime.replace_microsecond_0 (now_utc c)).

(** The instant a stored timestamp names: the reading cut to the second. *)
Definition stamp_instant (c : Clock) : Z :=
  (posix_us c - posix_us c mod 1000000)%Z.

(** [init_storage()] and [build_block_from_items(items, max_news)] at a
    reading of the clock. *)
Definition init_storage_at (c : Clock) (loaded : Storage) : Storage :=
  init_storage loaded (cutoff_text c).

Definition build_at (c : Clock) (items : list Item) (max_news : Z)
    (st : Storage) : result (option Block * Storage) :=
  build_block_from_items items max_news (stamp_text c) st.

(** The reading at a UTC date and time, on a host at [offset] seconds
    from UTC. *)
Definition clock_at (y m d h mi s us : Z) (offset : Z) : Clock :=
  {| posix_us :=
       (Datetime.to_micro (Datetime.mkDatetime y m d h mi s us)
        - Datetime.epoch)%Z;
     utcoffset := offset |}.

Definition thirty_days_us : Z := (30 * Datetime.us_per_day)%Z.

(** ** Sample data

    A small scenario used to run the definitions: the storage a first
    start leaves (no file on disk), a few candidates, and two clock
    readings. *)

Definition text (s : string) : option pyval := Some (Some (py s)).

(** The block [create_genesis_block] returns, digests written out. *)
Definition genesis_block : Block :=
  {| block_number := 0;
     timestamp := py "2025-11-05T11:20:00Z";
     news := [ {| title := Some genesis_title;
                  link := Some genesis_link;
                  source := Some genesis_source;
                  published := Some genesis_published;
                  summary := Some genesis_summary;
                  iHash := py "fb3173363c3dcd1acaa3e81fb7b3fda35d5f3193e00cebc8ac96ea10803356ea" |} ];
     blockhash := py "8d7dd8a70143960bf822798ff450cf43059f849c2eaf217c98cee7f527d4e5bc";
     previous := None |}.

Definition empty_storage : Storage :=
  {| sent_news := ∅; pending := ∅; blocks := [] |}.

Definition genesis_storage : Storage :=
  init_storage empty_storage (py "2025-11-01T10:00:00.000000").

Definition sample_now : pystr := py "2025-12-01T10:00:00+00:00".

Definition item_A : Item :=
  {| i_title := text "X"; i_link := text "https://a.example/1";
     i_source := text "user-submission"; i_published := text "";
     i_summary := text "" |}.

Definition item_B : Item :=
  {| i_title := text "Y"; i_link := text "https://b.example/2";
     i_source := text "Feed"; i_published := text "2025-11-30";
     i_summary := text "about Y" |}.

(** The link of [item_A] under another title. *)
Definition item_A2 : Item :=
  {| i_title := text "X, updated"; i_link := text "https://a.example/1";
     i_source := text "user-submission"; i_published := text "";
     i_summary := text "" |}.

(** A candidate whose title has 281 code points. *)
Definition item_long : Item :=
  {| i_title := Some (Some (replicate 281 97));
     i_link := text "https://c.example/3";
     i_source := text "Feed"; i_published := text "2025-11-30";
     i_summary := text "" |}.

(** The block and the storage a build leaves. *)
Definition block_of (r : result (option Block * Storage)) : option Block :=
  match r with
  | Ok (b, _) => b
  | Raise _ => None
  end.

Definition storage_of (st : Storage) (r : result (option Block * Storage))
    : Storage :=
  match r with
  | Ok (_, st') => st'
  | Raise _ => st
  end.

(** The storage after the first start and one build from [item_A] and
    [item_B]. *)
Definition sample_storage : Storage :=
  storage_of genesis_storage
    (build_block_from_items [item_A; item_B] 5 sample_now genesis_storage).

(** A history that already holds the link of [item_A]. *)
Definition broadcast_storage : Storage :=
  {| sent_news := {[ Some (py "https://a.example/1") := sample_now ]};
     pending := ∅;
     blocks := [genesis_block] |}.

(** The reply and the storage a submission leaves. *)
Definition after_submit (st : Storage) (r : result (submit_reply * Storage))
    : Storage :=
  match r with
  | Ok (_, st') => st'
  | Raise _ => st
  end.

(** The first start followed by [/submit https://a.example/1]. *)
Definition submitted_storage : Storage :=
  after_submit genesis_storage
    (submit (py "https://a.example/1") (Some (py "X"))
       (Some (py "user-submission")) (Some (py "")) (py "alice")
       (py "2025-11-30T09:00:00.000000+00:00") genesis_storage).

(** A storage, as two files on disk can describe it, in which one link
    is both queued and in the history. *)
Definition overlap_storage : Storage :=
  {| sent_news := {[ Some (py "https://a.example/1") := sample_now ]};
     pending :=
       {[ Some (py "https://a.example/1") :=
            {| p_title := Some (py "X");
               p_link := Some (py "https://a.example/1");
               p_source := Some (py "user-submission");
               p_published := Some (py "");
               p_submitter := py "alice";
               p_added_at := py "2025-11-30T09:00:00.000000+00:00";
               p_iHash := py "8fca6d31cae250960d4f840e6a06f199a3eb67aad975939a5ca1a60759ae3874" |} ]};
     blocks := [genesis_block] |}.

(** Editing a stored block: the [news] list is replaced, every other
    field (the [blockhash] among them) is kept. *)
Definition with_news (b : Block) (ns : list Entry) : Block :=
  {| block_number := block_number b;
     timestamp := timestamp b;
     news := ns;
     blockhash := blockhash b;
     previous := previous b |}.

Definition tamper (bs : list Block) (i : nat) (ns : list Entry) : list Block :=
  alter (fun b => with_news b ns) i bs.

(** [a < b] on text. *)
Definition str_lt (a b : pystr) : bool := negb (str_le b a).

(** A history loaded on 2025-12-01 at 10:00:00.123456 local time: one
    link broadcast 31 days earlier, one 29 days earlier. *)
Definition sample_cutoff : pystr := py "2025-11-01T10:00:00.123456".

Definition aged_storage : Storage :=
  {| sent_news :=
       {[ Some (py "https://old.example/") := py "2025-10-31T10:00:00+00:00";
          Some (py "https://new.example/") := py "2025-11-02T10:00:00+00:00" ]};
     pending := ∅;
     blocks := [genesis_block] |}.

(** Two builds and a later start: [item_B] is mined on 2025-11-01 at
    05:00:00 UTC, [item_A] four hours later, and the node is started
    again on 2025-12-01 at 08:30:00.25 UTC, on a host at [offset]
    seconds from UTC. *)
Definition clock_first : Clock := clock_at 2025 11 1 5 0 0 0 0.
Definition clock_second : Clock := clock_at 2025 11 1 9 0 0 0 0.

Definition stamped_storage : Storage :=
  let st1 := storage_of genesis_storage
               (build_at clock_first [item_B] 5 genesis_storage) in
  storage_of st1 (build_at clock_second [item_A] 5 st1).

Definition load_at (offset : Z) : Clock :=
  clock_at 2025 12 1 8 30 0 250000 offset.

(** ** Vocabulary of the properties *)

(** [made_from it e]: [e] is the entry the selection loop stores for the
    candidate [it] — hashed over the candidate's own fields, stored with
    the title cut to 280 code points. *)
Definition made_from (it : Item) (e : Entry) : Prop :=
  ∃ (t : pystr) (s p : pyval),
    i_title it = Some (Some t) ∧ i_link it = Some (link e)
    ∧ i_source it = Some s ∧ i_published it = Some p
    ∧ create_iHash (Some t) (link e) s p = Ok (iHash e)
    ∧ title e = Some (take 280 t) ∧ source e = s ∧ published e = p.

(** The storages the program reaches: [init_storage] on a load without
    blocks seeds the genesis block, and every build that returns a block
    moves to the storage it leaves. *)
Inductive mined_from_genesis : Storage → Prop :=
| mined_seed (loaded : Storage) (cutoff : pystr) :
    blocks loaded = [] →
    mined_from_genesis (init_storage loaded cutoff)
| mined_build (st st' : Storage) (items : list Item) (max_news : Z)
      (now : pystr) (b : Block) :
    mined_from_genesis st →
    build_block_from_items items max_news now st = Ok (Some b, st') →
    mined_from_genesis st'.

(** ** Vocabulary of the further properties *)

(** A code point that [encode('utf-8')] accepts: a Unicode scalar value. *)
Definition scalar (c : N) : Prop := c < 0xD800 ∨ (0xDFFF < c ∧ c < 0x110000).

(** A lower-case hexadecimal digit, as a code point. *)
Definition hex_char (c : N) : Prop := (48 ≤ c ∧ c ≤ 57) ∨ (97 ≤ c ∧ c ≤ 102).

(** The text of a SHA-256 [hexdigest()]. *)
Definition hex_digest (s : pystr) : Prop := length s = 64%nat ∧ Forall hex_char s.

(** The lookup of the [/block] handler:
    [next((b for b in blocks if b['block_number'] == n), None)]. *)
Definition find_block (n : Z) (blocks : list Block) : option Block :=
  head (filter (fun b => block_number b = n) blocks).

(** No link is both queued and in the history. *)
Definition queues_disjoint (st : Storage) : Prop :=
  ∀ k : pyval, is_Some (pending st !! k) → sent_news st !! k = None.

(** A candidate with its four hashed keys present but no [link] key,
    and one whose title is [None]. *)
Definition item_no_link : Item :=
  {| i_title := text "Z"; i_link := None; i_source := text "Feed";
     i_published := text ""; i_summary := text "" |}.

Definition item_no_title : Item :=
  {| i_title := Some None; i_link := text "https://d.example/4";
     i_source := text "Feed"; i_published := text ""; i_summary := text "" |}.

(** A block with everything erased but what [verify_chain] reads: the
    [blockhash], the [previous] link and the iHash of each entry. *)
Definition redact (b : Block) : Block :=
  {| block_number := 0;
     timestamp := [];
     news := map (fun e => {| title := None; link := None; source := None;
                              published := None; summary := None;
                              iHash := iHash e |}) (news b);
     blockhash := blockhash b;
     previous := previous b |}.

(** Editing a stored block: the [blockhash] is replaced, every other
    field is kept. *)
Definition with_blockhash (b : Block) (h : pystr) : Block :=
  {| block_number := block_number b;
     timestamp := timestamp b;
     news := news b;
     blockhash := h;
     previous := previous b |}.

(** ** Statistics *)

(** [sources[source] = sources.get(source, 0) + 1] on a dictionary kept,
    as Python keeps it, in the order its keys were first inserted. *)
Fixpoint bump (s : pyval) (sources : list (pyval * nat)) : list (pyval * nat) :=
  match sources with
  | [] => [(s, 1%nat)]
  | (k, n) :: rest =>
      if decide (k = s) then (k, (n + 1)%nat) :: rest
      else (k, n) :: bump s rest
  end.

(** [get_stats()], the items of the dictionary it returns. *)
Definition get_stats (blocks : list Block) : list (pyval * nat) :=
  fold_left
    (fun sources block =>
       fold_left (fun sources n => bump (source n) sources) (news block)
                 sources)
    blocks [].

(** [sorted(items, key=lambda x: x[1], reverse=True)]: a stable sort by
    decreasing count. *)
Fixpoint insert_by_count (x : pyval * nat) (l : list (pyval * nat))
    : list (pyval * nat) :=
  match l with
  | [] => [x]
  | y :: l' =>
      if decide (y.2 ≤ x.2)%nat then x :: y :: l'
      else y :: insert_by_count x l'
  end.

Definition sort_by_count (l : list (pyval * nat)) : list (pyval * nat) :=
  foldr insert_by_count [] l.

(** The rows of the [/stats] reply, [sorted_sources[:10]], and its total,
    [sum(sources.values())]. *)
Definition top_sources (blocks : list Block) : list (pyval * nat) :=
  take 10 (sort_by_count (get_stats blocks)).

Definition total_entries (blocks : list Block) : nat :=
  sum_list (map snd (get_stats blocks)).

(** The sources of all entries of a ledger, in ledger order. *)
Definition all_sources (blocks : list Block) : list pyval :=
  flat_map (fun b => map source (news b)) blocks.

(** The count standing under a key of the dictionary. *)
Definition stat_of (k : pyval) (acc : list (pyval * nat)) : nat :=
  sum_list (map snd (filter (fun kv => kv.1 = k) acc)).

(** Rows in the order of the [/stats] reply: counts do not increase. *)
Definition count_ge (a b : pyval * nat) : Prop := (b.2 ≤ a.2)%nat.

(** ** Mining *)

(** The candidate [/mine] makes of a queued link:
    [{'title': p.get('title'), 'link': link, 'source': p.get('source'),
      'published': p.get('published'), 'summary': ''}]. *)
Definition pending_candidate (kv : pyval * PendingEntry) : Item :=
  {| i_title := Some (p_title kv.2);
     i_link := Some kv.1;
     i_source := Some (p_source kv.2);
     i_published := Some (p_published kv.2);
     i_summary := Some (Some []) |}.

(** The second loop of [/mine]: the fetched items whose link is neither
    in the history nor queued, in the order they were fetched. *)
Fixpoint fresh_items (st : Storage) (rss_items : list Item)
    : result (list Item) :=
  match rss_items with
  | [] => Ok []
  | it :: rest =>
      lnk ← getitem (i_link it);
      match sent_news st !! lnk with
      | Some _ => fresh_items st rest
      | None =>
          match pending st !! lnk with
          | Some _ => fresh_items st rest
          | None => kept ← fresh_items st rest; Ok (it :: kept)
          end
      end
  end.

(** [/mine], from the fetched items to the block: [queue] is
    [pending.items()], the queued links in the order the dictionary
    yields them. *)
Definition mine (queue : list (pyval * PendingEntry)) (rss_items : list Item)
    (now : pystr) (st : Storage) : result (option Block * Storage) :=
  fresh ← fresh_items st rss_items;
  build_block_from_items (map pending_candidate queue ++ fresh) 5 now st.

(** The queue of [submitted_storage], as [pending.items()] yields it. *)
Definition submitted_entry : PendingEntry :=
  {| p_title := Some (py "X");
     p_link := Some (py "https://a.example/1");
     p_source := Some (py "user-submission");
     p_published := Some (py "");
     p_submitter := py "alice";
     p_added_at := py "2025-11-30T09:00:00.000000+00:00";
     p_iHash := py "8fca6d31cae250960d4f840e6a06f199a3eb67aad975939a5ca1a60759ae3874" |}.

Definition submitted_queue : list (pyval * PendingEntry) :=
  [ (Some (py "https://a.example/1"), submitted_entry) ].

(** ** Fetching *)









(** A candidate the scan cannot fail on but for its encoding: the four
    hashed keys are present, the title is a [str], and the summary is a
    [str] or absent. *)
Definition sliceable (it : Item) : Prop :=
  (∃ t, i_title it = Some (Some t)) ∧ is_Some (i_link it)
  ∧ is_Some (i_source it) ∧ is_Some (i_published it)
  ∧ i_summary it ≠ Some None.

(** The text [create_iHash] encodes for a candidate. *)
Definition hashed_text (it : Item) : pystr :=
  or_empty (get_default (i_title it)) ++ or_empty (get_default (i_link it))
  ++ or_empty (get_default (i_source it))
  ++ or_empty (get_default (i_published it)).


(** * Properties *)

(** ** The order on text *)

Section str_order.

Lemma str_le_total (a b : pystr) : str_le a b = true ∨ str_le b a = true.
Proof.
  revert b. induction a as [|x a IH]; intros [|y b]; simpl; auto.
  destruct (N.ltb_spec x y), (N.ltb_spec y x); auto; lia.
Qed.

Lemma str_le_antisym (a b : pystr) :
  str_le a b = true → str_le b a = true → a = b.
Proof.
  revert b. induction a as [|x a IH]; intros [|y b]; simpl; try done.
  destruct (N.ltb_spec x y), (N.ltb_spec y x); try done; try lia.
  intros Hab Hba. assert (x = y) as -> by lia. f_equal. by apply IH.
Qed.

Lemma str_le_trans (a b c : pystr) :
  str_le a b = true → str_le b c = true → str_le a c = true.
Proof.
  revert b c. induction a as [|x a IH]; intros [|y b] [|z c]; simpl; try done.
  destruct (N.ltb_spec x y), (N.ltb_spec y x), (N.ltb_spec y z),
    (N.ltb_spec z y), (N.ltb_spec x z), (N.ltb_spec z x);
    try done; try lia.
  apply IH.
Qed.

#[global] Instance pystr_le_total : Total pystr_le.
Proof. intros a b. apply str_le_total. Qed.

#[global] Instance pystr_le_trans : Transitive pystr_le.
Proof. intros a b c. apply str_le_trans. Qed.

#[global] Instance pystr_le_antisym : AntiSymm (=) pystr_le.
Proof. intros a b. apply str_le_antisym. Qed.

(** [sorted] returns the one ordered arrangement of its argument. *)
Lemma sorted_Permutation (l l' : list pystr) :
  l ≡ₚ l' → sorted l = sorted l'.
Proof.
  intros Hp. unfold sorted.
  apply (Sorted_unique pystr_le).
  - apply Sorted_merge_sort; apply _.
  - apply Sorted_merge_sort; apply _.
  - by rewrite !merge_sort_Permutation.
Qed.

End str_order.

(** ** HashEngine *)

(** C4 — permutation invariance of the block hash: two lists of digests
    that are permutations of each other (the same multiset, in any order)
    get the same result from [compute_block_hash]. *)
Theorem compute_block_hash_permutation (l l' : list pystr) :
  l ≡ₚ l' → compute_block_hash l = compute_block_hash l'.
Proof.
  intros Hp. unfold compute_block_hash. by rewrite (sorted_Permutation l l').
Qed.

Lemma compute_block_hash_permutation_witness :
  let a := py "aa" in let b := py "b" in let c := py "ab" in
  [a; b; c] ≡ₚ [c; a; b] ∧
  compute_block_hash [a; b; c] = compute_block_hash [c; a; b].
Proof.
  intros a b c.
  assert (Hp : [a; b; c] ≡ₚ [c; a; b]).
  { change [a; b; c] with ([a; b] ++ [c]). apply Permutation_app_comm. }
  split; [exact Hp | exact (compute_block_hash_permutation _ _ Hp)].
Defined.

(** ** Ledger: [verify_chain] *)

Section verify.

(** What an accepted chain looks like from the first block on. *)
Lemma verify_from_true_inv (prev b : Block) (rest : list Block) :
  verify_from prev (b :: rest) = Ok true →
  previous b = Some (blockhash prev)
  ∧ compute_block_hash (map iHash (news b)) = Ok (blockhash b)
  ∧ verify_from b rest = Ok true.
Proof.
  simpl. case_decide as Hprev; [done|].
  destruct (compute_block_hash _) as [h|e]; simpl; [|done].
  case_decide as Hh; [done|]. intros Hv.
  by subst h.
Qed.

Lemma verify_from_true_intro (prev b : Block) (rest : list Block) :
  previous b = Some (blockhash prev) →
  compute_block_hash (map iHash (news b)) = Ok (blockhash b) →
  verify_from b rest = Ok true →
  verify_from prev (b :: rest) = Ok true.
Proof.
  intros Hprev Hh Hv. simpl. rewrite Hh. simpl.
  rewrite decide_False by (intros Hne; by apply Hne).
  rewrite decide_False by (intros Hne; by apply Hne). done.
Qed.

(** Appending a block linked to the tip, carrying the hash of its own
    entries, keeps the chain accepted. *)
Lemma verify_from_snoc (prev : Block) (rest : list Block) (tip b : Block) :
  verify_from prev rest = Ok true →
  last (prev :: rest) = Some tip →
  previous b = Some (blockhash tip) →
  compute_block_hash (map iHash (news b)) = Ok (blockhash b) →
  verify_from prev (rest ++ [b]) = Ok true.
Proof.
  revert prev. induction rest as [|c rest IH]; intros prev Hv Hl Hp Hh.
  - simpl in Hl. injection Hl as ->. by apply verify_from_true_intro.
  - apply verify_from_true_inv in Hv as (Hc1 & Hc2 & Hv).
    simpl. apply verify_from_true_intro; [done..|].
    apply IH; try done.
Qed.

Lemma verify_chain_snoc (bs : list Block) (tip b : Block) :
  verify_chain bs = Ok true →
  last bs = Some tip →
  previous b = Some (blockhash tip) →
  compute_block_hash (map iHash (news b)) = Ok (blockhash b) →
  verify_chain (bs ++ [b]) = Ok true.
Proof.
  destruct bs as [|g rest]; [done|]. simpl. apply verify_from_snoc.
Qed.

(** An accepted chain links and hashes every adjacent pair. *)
Lemma verify_from_adjacent (prev : Block) (rest : list Block) :
  verify_from prev rest = Ok true →
  ∀ (i : nat) (a b : Block),
    (prev :: rest) !! i = Some a → (prev :: rest) !! S i = Some b →
    previous b = Some (blockhash a)
    ∧ compute_block_hash (map iHash (news b)) = Ok (blockhash b).
Proof.
  revert prev. induction rest as [|c rest IH]; intros prev Hv i a b Ha Hb.
  - destruct i; done.
  - apply verify_from_true_inv in Hv as (Hc1 & Hc2 & Hv).
    destruct i as [|i].
    + simpl in Ha, Hb. by simplify_eq.
    + by apply (IH c Hv i).
Qed.

Lemma verify_chain_adjacent (bs : list Block) :
  verify_chain bs = Ok true →
  ∀ (i : nat) (a b : Block),
    bs !! i = Some a → bs !! S i = Some b →
    previous b = Some (blockhash a)
    ∧ compute_block_hash (map iHash (news b)) = Ok (blockhash b).
Proof.
  destruct bs as [|g rest]; [by intros _ []|]. apply verify_from_adjacent.
Qed.

End verify.

(** ** BlockBuilder: the selection loop *)

Section select.

Context (sent : gmap pyval pystr) (max_news : Z).

(** One turn of the loop on [it]: either the accumulators go unchanged
    to the rest of the list, or an entry made from [it] is appended and
    the loop stops or goes on. *)
Lemma select_items_cons (it : Item) (rest : list Item)
    (sel sel' : list Entry) (ihs ihs' : list pystr) :
  select_items sent max_news (it :: rest) sel ihs = Ok (sel', ihs') →
  select_items sent max_news rest sel ihs = Ok (sel', ihs')
  ∨ ∃ e : Entry,
      made_from it e ∧ sent !! link e = None ∧ (iHash e ∉ ihs)
      ∧ (Ok (sel ++ [e], ihs ++ [iHash e]) = Ok (sel', ihs')
         ∨ select_items sent max_news rest (sel ++ [e]) (ihs ++ [iHash e])
           = Ok (sel', ihs')).
Proof.
  intros H. simpl in H.
  destruct (i_link it) as [lnk|] eqn:El; simpl in H; [|done].
  destruct (sent !! lnk) eqn:Es; [by left|].
  destruct (i_title it) as [t|] eqn:Et; simpl in H; [|done].
  destruct (i_source it) as [s|] eqn:Eso; simpl in H; [|done].
  destruct (i_published it) as [p|] eqn:Ep; simpl in H; [|done].
  destruct (create_iHash t lnk s p) as [ih|] eqn:Eh; simpl in H; [|done].
  case_decide as Hin; [by left|].
  destruct t as [t|]; simpl in H; [|done].
  destruct (slice_to 300 (get_default (i_summary it))) as [s300|] eqn:E3;
    simpl in H; [|done].
  right.
  eexists {| title := Some (take 280 t); link := lnk; source := s;
             published := p; summary := s300; iHash := ih |}.
  split; [|split; [done|split; [done|]]].
  - exists t, s, p. simpl. done.
  - simpl. case_decide; [by left|by right].
Qed.

(** An invariant of the two accumulators that survives every append
    survives the loop. *)
Lemma select_items_inv (P : list Entry → list pystr → Prop)
    (items : list Item) :
  (∀ sel ihs it e,
      P sel ihs → it ∈ items → made_from it e → sent !! link e = None →
      iHash e ∉ ihs → P (sel ++ [e]) (ihs ++ [iHash e])) →
  ∀ sel ihs sel' ihs',
    P sel ihs →
    select_items sent max_news items sel ihs = Ok (sel', ihs') →
    P sel' ihs'.
Proof.
  induction items as [|it rest IH]; intros Hstep sel ihs sel' ihs' HP H.
  - simpl in H. by simplify_eq.
  - assert (Hrest : ∀ sel ihs it e,
               P sel ihs → it ∈ rest → made_from it e →
               sent !! link e = None → iHash e ∉ ihs →
               P (sel ++ [e]) (ihs ++ [iHash e])).
    { intros ?? it' ?? Hin. apply (Hstep _ _ it'); [done|]. by right. }
    apply select_items_cons in H as [H | (e & Hm & Hs & Hn & [H | H])].
    + by apply (IH Hrest sel ihs).
    + simplify_eq. apply (Hstep _ _ it); try done. by left.
    + apply (IH Hrest (sel ++ [e]) (ihs ++ [iHash e])); [|done].
      apply (Hstep _ _ it); try done. by left.
Qed.

(** The list of digests is the list of the entries' digests. *)
Lemma select_items_iHashes (items : list Item) (sel : list Entry)
    (ihs : list pystr) :
  select_items sent max_news items [] [] = Ok (sel, ihs) →
  ihs = map iHash sel.
Proof.
  apply (select_items_inv (fun sel ihs => ihs = map iHash sel)); [|done].
  intros ???? -> _ _ _ _. by rewrite map_app.
Qed.

(** Every selected entry was made from a candidate that is not in the
    history. *)
Lemma select_items_made_from (items : list Item) (sel : list Entry)
    (ihs : list pystr) :
  select_items sent max_news items [] [] = Ok (sel, ihs) →
  ∀ e, e ∈ sel → sent !! link e = None ∧ ∃ it, it ∈ items ∧ made_from it e.
Proof.
  apply (select_items_inv
           (fun sel _ => ∀ e, e ∈ sel →
              sent !! link e = None ∧ ∃ it, it ∈ items ∧ made_from it e)).
  - intros sel0 ihs0 it e IH Hit Hm Hs _ e' [He'|He']%elem_of_app.
    + by apply IH.
    + apply list_elem_of_singleton in He' as ->. split; [done|]. by exists it.
  - intros e He. by apply elem_of_nil in He.
Qed.

(** Candidates whose links are all in the history select nothing. *)
Lemma select_items_all_sent (items : list Item) (sel : list Entry)
    (ihs : list pystr) :
  (∀ it, it ∈ items → ∃ lnk, i_link it = Some lnk ∧ is_Some (sent !! lnk)) →
  select_items sent max_news items sel ihs = Ok (sel, ihs).
Proof.
  induction items as [|it rest IH]; intros Hall; [done|].
  destruct (Hall it) as (lnk & Hl & [ts Hts]); [by left|].
  simpl. rewrite Hl. simpl. rewrite Hts. apply IH.
  intros it' Hin. apply Hall. by right.
Qed.

End select.

(** ** BlockBuilder: [build_block_from_items] *)

Section build.

Context (items : list Item) (max_news : Z) (now : pystr) (st : Storage).

(** The storage update loop, link by link. *)
Lemma mark_sent_fold (sel : list Entry) (s : gmap pyval pystr)
    (p : gmap pyval PendingEntry) (k : pyval) :
  (fold_left (mark_sent now) sel (s, p)).1 !! k
    = (if decide (k ∈ map link sel) then Some now else s !! k)
  ∧ (fold_left (mark_sent now) sel (s, p)).2 !! k
    = (if decide (k ∈ map link sel) then None else p !! k).
Proof.
  revert s p. induction sel as [|n sel IH]; intros s p.
  - done.
  - simpl. unfold mark_sent at 2 4. simpl.
    assert (Hp : match p !! link n with
                 | Some _ => delete (link n) p
                 | None => p
                 end = delete (link n) p).
    { destruct (p !! link n) eqn:E; [done|]. by rewrite delete_id. }
    rewrite Hp.
    destruct (IH (<[link n := now]> s) (delete (link n) p)) as [-> ->].
    destruct (decide (k ∈ map link sel)) as [Hin|Hnin].
    + rewrite !decide_True by (by right). done.
    + destruct (decide (k = link n)) as [->|Hne].
      * rewrite !decide_True by (by left).
        by rewrite lookup_insert_eq, lookup_delete_eq.
      * rewrite !decide_False by (by intros [?|?]%elem_of_cons).
        by rewrite lookup_insert_ne, lookup_delete_ne.
Qed.

(** What a build that returns a block did. *)
Lemma build_Some_inv (b : Block) (st' : Storage) :
  build_block_from_items items max_news now st = Ok (Some b, st') →
  ∃ (sel : list Entry) (ihs : list pystr),
    select_items (sent_news st) max_news items [] [] = Ok (sel, ihs)
    ∧ sel ≠ []
    ∧ compute_block_hash ihs = Ok (blockhash b)
    ∧ news b = sel
    ∧ block_number b = (Z.of_nat (length (blocks st)) + 1)%Z
    ∧ timestamp b = now
    ∧ previous b = blockhash <$> last (blocks st)
    ∧ sent_news st' = (fold_left (mark_sent now) sel (sent_news st, pending st)).1
    ∧ pending st' = (fold_left (mark_sent now) sel (sent_news st, pending st)).2
    ∧ blocks st' = blocks st ++ [b].
Proof.
  unfold build_block_from_items. intros H.
  destruct (select_items _ _ _ _ _) as [[sel ihs]|] eqn:Es; simpl in H; [|done].
  destruct sel as [|e sel]; [done|].
  destruct (compute_block_hash ihs) as [bh|] eqn:Eh; simpl in H; [|done].
  injection H as <- <-. exists (e :: sel), ihs. by repeat split.
Qed.

(** A build returns no block exactly when nothing was selected, and
    then the storage is the one it started from. *)
Lemma build_None_inv (st' : Storage) :
  build_block_from_items items max_news now st = Ok (None, st') → st' = st.
Proof.
  unfold build_block_from_items. intros H.
  destruct (select_items _ _ _ _ _) as [[sel ihs]|] eqn:Es; simpl in H; [|done].
  destruct sel as [|e sel]; [by simplify_eq|].
  destruct (compute_block_hash ihs) as [bh|] eqn:Eh; simpl in H; done.
Qed.

(** The number given to a new block. *)
Lemma build_block_number (b : Block) (st' : Storage) :
  build_block_from_items items max_news now st = Ok (Some b, st') →
  block_number b = (Z.of_nat (length (blocks st)) + 1)%Z.
Proof. intros (? & ? & ? & ? & ? & ? & ? & ?)%build_Some_inv. done. Qed.

(** The block a build returns carries the hash of its own entries. *)
Lemma build_blockhash (b : Block) (st' : Storage) :
  build_block_from_items items max_news now st = Ok (Some b, st') →
  compute_block_hash (map iHash (news b)) = Ok (blockhash b).
Proof.
  intros (sel & ihs & Hs & _ & Hh & -> & _)%build_Some_inv.
  by rewrite <-(select_items_iHashes _ _ _ _ _ Hs).
Qed.

End build.

(** ** Running the sample scenario *)

Example sha256_hex_abc :
  sha256_hex (py "abc")
  = Ok (py "ba7816bf8f01cfea414140de5dae2223b00361a396177a9cb410ff61f20015ad").
Proof. vm_compute. reflexivity. Qed.

Example sha256_constants :
  SHA256.K !! 0%nat = Some 0x428a2f98 ∧ SHA256.K !! 63%nat = Some 0xc67178f2
  ∧ length SHA256.K = 64%nat
  ∧ SHA256.H0 !! 0%nat = Some 0x6a09e667 ∧ SHA256.H0 !! 7%nat = Some 0x5be0cd19.
Proof. repeat split. Qed.

Example sha256_hex_surrogate : sha256_hex [0xD800] = Raise UnicodeEncodeError.
Proof. reflexivity. Qed.

Example sorted_sample :
  sorted [py "b"; py "ab"; py "a"; py "B"] = [py "B"; py "a"; py "ab"; py "b"].
Proof. vm_compute. reflexivity. Qed.

Lemma create_genesis_block_ok : create_genesis_block = Ok genesis_block.
Proof. vm_compute. reflexivity. Qed.

Lemma genesis_storage_blocks : blocks genesis_storage = [genesis_block].
Proof.
  unfold genesis_storage, init_storage.
  rewrite create_genesis_block_ok. reflexivity.
Qed.

(** The genesis hash is the block hash of its single entry. *)
Example genesis_blockhash_recomputed :
  compute_block_hash (map iHash (news genesis_block))
  = Ok (blockhash genesis_block).
Proof. vm_compute. reflexivity. Qed.

(** C1 — the specification numbers a new block with the length [L] of the ledger
    before the append; the code uses [len(blocks) + 1].  Run on the
    storage of a first start, whose ledger is the genesis block alone
    ([L = 1]), a build from one fresh candidate returns a block numbered
    2: the chain goes from block 0 to block 2. *)
Theorem first_mined_block_number :
  ∃ (b : Block) (st' : Storage),
    length (blocks genesis_storage) = 1%nat
    ∧ build_block_from_items [item_A] 5 sample_now genesis_storage
      = Ok (Some b, st')
    ∧ block_number b = 2%Z.
Proof.
  destruct (build_block_from_items [item_A] 5 sample_now genesis_storage)
    as [[[b|] st']|e] eqn:E.
  - exists b, st'. split; [by rewrite genesis_storage_blocks|].
    split; [done|].
    rewrite (build_block_number _ _ _ _ _ _ E).
    by rewrite genesis_storage_blocks.
  - vm_compute in E. discriminate E.
  - vm_compute in E. discriminate E.
Qed.

(** ** Chain integrity *)

Lemma build_keeps_chain_verified (items : list Item) (max_news : Z)
    (now : pystr) (st st' : Storage) (b : Block) :
  verify_chain (blocks st) = Ok true →
  build_block_from_items items max_news now st = Ok (Some b, st') →
  verify_chain (blocks st') = Ok true.
Proof.
  intros Hv Hb. pose proof (build_blockhash _ _ _ _ _ _ Hb) as Hh.
  apply build_Some_inv in Hb
    as (sel & ihs & _ & _ & _ & _ & _ & _ & Hprev & _ & _ & ->).
  destruct (last (blocks st)) as [tip|] eqn:Hl.
  - by apply (verify_chain_snoc _ tip).
  - apply last_None in Hl. by rewrite Hl.
Qed.

Lemma init_storage_chain_verified (loaded : Storage) (cutoff : pystr) :
  blocks loaded = [] → verify_chain (blocks (init_storage loaded cutoff)) = Ok true.
Proof.
  intros Hl. unfold init_storage. rewrite Hl, create_genesis_block_ok. done.
Qed.

(** C3 — chain integrity round trip: on every storage reached by seeding
    the genesis block and then any number of builds that returned a
    block, [verify_chain] returns [True]; every block after the first has
    [previous] equal to the [blockhash] of the block before it and a
    [blockhash] equal to the recomputed hash of its entries' iHashes. *)
Theorem mined_chain_verifies (st : Storage) :
  mined_from_genesis st →
  verify_chain (blocks st) = Ok true
  ∧ ∀ (i : nat) (a b : Block),
      blocks st !! i = Some a → blocks st !! S i = Some b →
      previous b = Some (blockhash a)
      ∧ compute_block_hash (map iHash (news b)) = Ok (blockhash b).
Proof.
  intros Hm.
  assert (Hv : verify_chain (blocks st) = Ok true).
  { induction Hm as [loaded cutoff Hl | st st' items max_news now b _ IH Hb].
    - by apply init_storage_chain_verified.
    - by apply (build_keeps_chain_verified items max_news now st st' b). }
  split; [done|]. by apply verify_chain_adjacent.
Qed.

Lemma sample_storage_mined : mined_from_genesis sample_storage.
Proof.
  unfold sample_storage.
  destruct (build_block_from_items [item_A; item_B] 5 sample_now
              genesis_storage) as [[[b|] st']|e] eqn:E.
  - simpl. eapply mined_build; [|exact E].
    by apply mined_seed.
  - vm_compute in E. discriminate E.
  - vm_compute in E. discriminate E.
Defined.

Lemma mined_chain_verifies_witness :
  mined_from_genesis sample_storage
  ∧ verify_chain (blocks sample_storage) = Ok true
  ∧ ∀ (i : nat) (a b : Block),
      blocks sample_storage !! i = Some a →
      blocks sample_storage !! S i = Some b →
      previous b = Some (blockhash a)
      ∧ compute_block_hash (map iHash (news b)) = Ok (blockhash b).
Proof.
  split; [exact sample_storage_mined|].
  exact (mined_chain_verifies sample_storage sample_storage_mined).
Defined.

Example sample_storage_length : length (blocks sample_storage) = 2%nat.
Proof. vm_compute. reflexivity. Qed.

(** ** What a build stores *)

(** C6 — after a build that returned a block, for each entry of the
    block the history maps the entry's link to the block's timestamp and
    the pending map has no entry for that link; the block's [previous]
    is the [blockhash] of the block that was last before the append. *)
Theorem build_marks_broadcast (items : list Item) (max_news : Z)
    (now : pystr) (st st' : Storage) (b : Block) :
  build_block_from_items items max_news now st = Ok (Some b, st') →
  (∀ e : Entry, e ∈ news b →
     sent_news st' !! link e = Some (timestamp b)
     ∧ pending st' !! link e = None)
  ∧ (∀ tip : Block, last (blocks st) = Some tip →
       previous b = Some (blockhash tip))
  ∧ blocks st' = blocks st ++ [b].
Proof.
  intros (sel & ihs & _ & _ & _ & Hn & _ & Ht & Hprev & Hs & Hp & Hb)%build_Some_inv.
  split; [|split; [|done]].
  - intros e He. rewrite Hn in He.
    destruct (mark_sent_fold now sel (sent_news st) (pending st) (link e))
      as [H1 H2].
    rewrite Hs, Hp, H1, H2, Ht.
    rewrite !decide_True by (by apply list_elem_of_fmap_2). done.
  - intros tip Hl. by rewrite Hprev, Hl.
Qed.

Lemma build_marks_broadcast_witness :
  ∃ (b : Block) (st' : Storage),
    build_block_from_items [item_A; item_B] 5 sample_now submitted_storage
    = Ok (Some b, st')
    ∧ (∀ e : Entry, e ∈ news b →
         sent_news st' !! link e = Some (timestamp b)
         ∧ pending st' !! link e = None)
    ∧ (∀ tip : Block, last (blocks submitted_storage) = Some tip →
         previous b = Some (blockhash tip))
    ∧ blocks st' = blocks submitted_storage ++ [b].
Proof.
  destruct (build_block_from_items [item_A; item_B] 5 sample_now
              submitted_storage) as [[[b|] st']|e] eqn:E.
  - exists b, st'. split; [reflexivity|].
    exact (build_marks_broadcast _ _ _ _ _ _ E).
  - vm_compute in E. discriminate E.
  - vm_compute in E. discriminate E.
Defined.

(** C7 — when every candidate's link is already in the history, the
    build returns [None] without raising, and the ledger, the history
    and the pending map are the ones it started from. *)
Theorem build_all_broadcast (items : list Item) (max_news : Z)
    (now : pystr) (st : Storage) :
  (∀ it : Item, it ∈ items →
     ∃ lnk : pyval, i_link it = Some lnk ∧ is_Some (sent_news st !! lnk)) →
  build_block_from_items items max_news now st = Ok (None, st).
Proof.
  intros Hall. unfold build_block_from_items.
  by rewrite (select_items_all_sent _ _ _ _ _ Hall).
Qed.

Lemma build_all_broadcast_witness :
  (∀ it : Item, it ∈ [item_A; item_A2] →
     ∃ lnk : pyval,
       i_link it = Some lnk ∧ is_Some (sent_news broadcast_storage !! lnk))
  ∧ build_block_from_items [item_A; item_A2] 5 sample_now broadcast_storage
    = Ok (None, broadcast_storage).
Proof.
  assert (H : ∀ it : Item, it ∈ [item_A; item_A2] →
     ∃ lnk : pyval,
       i_link it = Some lnk ∧ is_Some (sent_news broadcast_storage !! lnk)).
  { intros it Hin. exists (Some (py "https://a.example/1")).
    assert (Hl : i_link it = Some (Some (py "https://a.example/1"))).
    { apply elem_of_cons in Hin as [->|Hin]; [reflexivity|].
      apply list_elem_of_singleton in Hin as ->. reflexivity. }
    split; [exact Hl|]. exists sample_now. vm_compute. reflexivity. }
  split; [exact H|]. exact (build_all_broadcast _ _ _ _ H).
Defined.

(** ** The digest stored with an entry *)

(** A build of the long-titled candidate stores the title cut to 280
    code points beside the digest of the 281 it came with: hashing the
    stored fields again gives another digest. *)
Lemma truncated_title_iHash_differs :
  ∃ (b : Block) (st' : Storage) (e : Entry),
    build_block_from_items [item_long] 5 sample_now genesis_storage
    = Ok (Some b, st')
    ∧ e ∈ news b
    ∧ create_iHash (title e) (link e) (source e) (published e)
      ≠ Ok (iHash e).
Proof.
  destruct (build_block_from_items [item_long] 5 sample_now genesis_storage)
    as [[[b|] st']|e] eqn:E.
  - vm_compute in E. injection E as <- <-.
    eexists _, _, _. split; [reflexivity|]. split; [by left|].
    vm_compute. discriminate.
  - vm_compute in E. discriminate E.
  - vm_compute in E. discriminate E.
Qed.

(** C5, amended — every entry of a block that a build returned was made
    from one of the candidates: its iHash is the SHA-256 hex digest of
    the UTF-8 encoding of the candidate's own title, link, source and
    published (the empty string for [None]) joined without separator,
    and the stored title is the candidate's title cut to 280 code
    points; when that title has at most 280 code points the iHash is the
    digest of the stored fields as well. *)
Theorem stored_iHash_of_candidate (items : list Item) (max_news : Z)
    (now : pystr) (st st' : Storage) (b : Block) :
  build_block_from_items items max_news now st = Ok (Some b, st') →
  ∀ e : Entry, e ∈ news b →
    ∃ (it : Item) (t : pystr),
      it ∈ items
      ∧ i_title it = Some (Some t)
      ∧ i_link it = Some (link e)
      ∧ i_source it = Some (source e)
      ∧ i_published it = Some (published e)
      ∧ title e = Some (take 280 t)
      ∧ sha256_hex (t ++ or_empty (link e) ++ or_empty (source e)
                      ++ or_empty (published e)) = Ok (iHash e)
      ∧ ((length t ≤ 280)%nat →
         create_iHash (title e) (link e) (source e) (published e)
         = Ok (iHash e)).
Proof.
  intros (sel & ihs & Hs & _ & _ & -> & _)%build_Some_inv e He.
  destruct (select_items_made_from _ _ _ _ _ Hs e He)
    as (_ & it & Hit & t & s & p & Ht & Hl & Hso & Hp & Hh & Hte & <- & <-).
  exists it, t. repeat (split; [done|]).
  intros Hlen. rewrite Hte, take_ge by done. exact Hh.
Qed.

Lemma stored_iHash_of_candidate_witness :
  ∃ (b : Block) (st' : Storage),
    build_block_from_items [item_A; item_B] 5 sample_now genesis_storage
    = Ok (Some b, st')
    ∧ ∀ e : Entry, e ∈ news b →
        ∃ (it : Item) (t : pystr),
          it ∈ [item_A; item_B]
          ∧ i_title it = Some (Some t)
          ∧ i_link it = Some (link e)
          ∧ i_source it = Some (source e)
          ∧ i_published it = Some (published e)
          ∧ title e = Some (take 280 t)
          ∧ sha256_hex (t ++ or_empty (link e) ++ or_empty (source e)
                          ++ or_empty (published e)) = Ok (iHash e)
          ∧ ((length t ≤ 280)%nat →
             create_iHash (title e) (link e) (source e) (published e)
             = Ok (iHash e)).
Proof.
  destruct (build_block_from_items [item_A; item_B] 5 sample_now
              genesis_storage) as [[[b|] st']|e] eqn:E.
  - exists b, st'. split; [reflexivity|].
    exact (stored_iHash_of_candidate _ _ _ _ _ _ E).
  - vm_compute in E. discriminate E.
  - vm_compute in E. discriminate E.
Defined.

(** C10 — one build can store the same link twice: [item_A] and
    [item_A2] share a link that is not in the history and differ in
    their titles, hence in their iHashes; a single build selects both,
    and the block it returns has two entries with that link. *)
Theorem same_link_selected_twice :
  ∃ (b : Block) (st' : Storage) (e1 e2 : Entry),
    i_link item_A = i_link item_A2
    ∧ i_title item_A ≠ i_title item_A2
    ∧ sent_news genesis_storage !! Some (py "https://a.example/1") = None
    ∧ build_block_from_items [item_A; item_A2] 5 sample_now genesis_storage
      = Ok (Some b, st')
    ∧ news b = [e1; e2]
    ∧ link e1 = Some (py "https://a.example/1")
    ∧ link e2 = Some (py "https://a.example/1")
    ∧ iHash e1 ≠ iHash e2.
Proof.
  destruct (build_block_from_items [item_A; item_A2] 5 sample_now
              genesis_storage) as [[[b|] st']|e] eqn:E.
  - vm_compute in E. injection E as <- <-.
    eexists _, _, _, _. split; [reflexivity|]. split; [discriminate|].
    split; [vm_compute; reflexivity|]. split; [reflexivity|].
    split; [reflexivity|]. split; [reflexivity|]. split; [reflexivity|].
    discriminate.
  - vm_compute in E. discriminate E.
  - vm_compute in E. discriminate E.
Qed.

(** ** Tamper evidence *)

Section tamper.

(** The loop reads nothing of the block before the first one it checks
    but its [blockhash]. *)
Lemma verify_from_prev (p1 p2 : Block) (rest : list Block) :
  blockhash p1 = blockhash p2 → verify_from p1 rest = verify_from p2 rest.
Proof. destruct rest as [|b rest]; [done|]. simpl. by intros ->. Qed.

Lemma verify_from_tamper (prev b : Block) (rest : list Block) (j : nat)
    (ns : list Entry) (h : pystr) :
  verify_from prev rest = Ok true →
  rest !! j = Some b →
  compute_block_hash (map iHash ns) = Ok h →
  h ≠ blockhash b →
  verify_from prev (tamper rest j ns) = Ok false.
Proof.
  revert prev j. induction rest as [|c rest IH]; intros prev j Hv Hj Hh Hne.
  - done.
  - apply verify_from_true_inv in Hv as (Hc1 & Hc2 & Hv).
    destruct j as [|j]; simpl in Hj.
    + injection Hj as ->. unfold tamper. simpl.
      rewrite decide_False by (intros Hn; by apply Hn).
      rewrite Hh. simpl. by rewrite decide_True by done.
    + unfold tamper. simpl. rewrite Hc2. simpl.
      rewrite decide_False by (intros Hn; by apply Hn).
      rewrite decide_False by (intros Hn; by apply Hn).
      by apply (IH c j).
Qed.

End tamper.

(** The sample chain with the news of its genesis block emptied is still
    accepted. *)
Lemma tampered_genesis_verifies :
  blocks sample_storage !! 0%nat = Some genesis_block
  ∧ news genesis_block ≠ []
  ∧ verify_chain (blocks sample_storage) = Ok true
  ∧ verify_chain (tamper (blocks sample_storage) 0 []) = Ok true.
Proof.
  split; [vm_compute; reflexivity|]. split; [discriminate|].
  split; vm_compute; reflexivity.
Qed.

(** C2, amended — on a chain that [verify_chain] accepts, replacing the
    news list of a block other than the first by a list whose recomputed
    block hash is not the block's stored [blockhash] makes [verify_chain]
    return [False]; replacing the news list of the first (genesis) block
    leaves the chain accepted, as its hash is never recomputed. *)
Theorem tampering_detected (bs : list Block) (i : nat) (b : Block)
    (ns : list Entry) :
  verify_chain bs = Ok true →
  bs !! i = Some b →
  (i = 0%nat → verify_chain (tamper bs i ns) = Ok true)
  ∧ ((0 < i)%nat →
     ∀ h : pystr,
       compute_block_hash (map iHash ns) = Ok h → h ≠ blockhash b →
       verify_chain (tamper bs i ns) = Ok false).
Proof.
  intros Hv Hi. destruct bs as [|g rest]; [done|]. split.
  - intros ->. unfold tamper. simpl. simpl in Hv.
    by rewrite (verify_from_prev (with_news g ns) g).
  - intros Hpos h Hh Hne. destruct i as [|j]; [lia|].
    unfold tamper. simpl. by apply (verify_from_tamper g b rest j ns h).
Qed.

Lemma tampering_detected_witness :
  ∃ b : Block,
    blocks sample_storage !! 1%nat = Some b
    ∧ verify_chain (tamper (blocks sample_storage) 1 []) = Ok false.
Proof.
  destruct (blocks sample_storage !! 1%nat) as [b|] eqn:E.
  - exists b. split; [reflexivity|].
    assert (Hv : verify_chain (blocks sample_storage) = Ok true)
      by (vm_compute; reflexivity).
    destruct (tampering_detected (blocks sample_storage) 1 b [] Hv E)
      as [_ H].
    apply (H (Nat.lt_0_succ 0) (py "e3b0c44298fc1c149afbf4c8996fb92427ae41e4649b934ca495991b7852b855")).
    + vm_compute. reflexivity.
    + vm_compute in E. injection E as <-. vm_compute. discriminate.
  - vm_compute in E. discriminate E.
Defined.

(** ** Submission *)

(** Two submissions the specification misjudges: a link that is queued and also
    in the history gets the reply for a broadcast link, and a link that
    cannot be encoded raises before either dictionary is consulted. *)
Lemma submit_queued_and_broadcast :
  (is_Some (pending overlap_storage !! Some (py "https://a.example/1"))
   ∧ submit (py "https://a.example/1") (Some (py "X"))
       (Some (py "user-submission")) (Some (py "")) (py "bob") sample_now
       overlap_storage
     = Ok (AlreadyBroadcast, overlap_storage))
  ∧ (∀ st : Storage,
       submit [0xD800] (Some [0xD800]) (Some (py "user-submission"))
         (Some (py "")) (py "bob") sample_now st
       = Raise UnicodeEncodeError).
Proof.
  split; [split|].
  - eexists. vm_compute. reflexivity.
  - vm_compute. reflexivity.
  - intros st. reflexivity.
Qed.

(** C8, amended — once the iHash of the submission is computed (it is
    computed first): a link in the history gets [AlreadyBroadcast]; a
    link not in the history but in the pending map gets
    [AlreadyPending]; in both cases the storage is unchanged; any other
    link is inserted in the pending map with its entry, and nothing else
    changes. *)
Theorem submit_replies (lnk : pystr) (title source published : pyval)
    (user now : pystr) (st : Storage) (ih : pystr) :
  create_iHash title (Some lnk) source published = Ok ih →
  (is_Some (sent_news st !! Some lnk) →
   submit lnk title source published user now st = Ok (AlreadyBroadcast, st))
  ∧ (sent_news st !! Some lnk = None → is_Some (pending st !! Some lnk) →
     submit lnk title source published user now st = Ok (AlreadyPending, st))
  ∧ (sent_news st !! Some lnk = None → pending st !! Some lnk = None →
     submit lnk title source published user now st
     = Ok (Submitted ih,
           {| sent_news := sent_news st;
              pending :=
                <[Some lnk := {| p_title := title; p_link := Some lnk;
                                 p_source := source;
                                 p_published := published;
                                 p_submitter := user; p_added_at := now;
                                 p_iHash := ih |}]> (pending st);
              blocks := blocks st |})).
Proof.
  intros Hh. unfold submit. rewrite Hh. simpl. split; [|split].
  - by intros [ts ->].
  - by intros -> [pe ->].
  - by intros -> ->.
Qed.

Lemma submit_replies_witness :
  let lnk := py "https://a.example/1" in
  let ih := py "8fca6d31cae250960d4f840e6a06f199a3eb67aad975939a5ca1a60759ae3874" in
  submit lnk (Some (py "X")) (Some (py "user-submission")) (Some (py ""))
    (py "bob") sample_now broadcast_storage
  = Ok (AlreadyBroadcast, broadcast_storage)
  ∧ submit lnk (Some (py "X")) (Some (py "user-submission")) (Some (py ""))
      (py "bob") sample_now submitted_storage
    = Ok (AlreadyPending, submitted_storage)
  ∧ ∃ st' : Storage,
      submit lnk (Some (py "X")) (Some (py "user-submission")) (Some (py ""))
        (py "bob") sample_now genesis_storage
      = Ok (Submitted ih, st')
      ∧ is_Some (pending st' !! Some lnk).
Proof.
  intros lnk ih.
  assert (Hh : create_iHash (Some (py "X")) (Some lnk)
                 (Some (py "user-submission")) (Some (py "")) = Ok ih)
    by (vm_compute; reflexivity).
  split; [|split].
  - apply (submit_replies lnk _ _ _ (py "bob") sample_now broadcast_storage
             ih Hh).
    exists sample_now. vm_compute. reflexivity.
  - apply (submit_replies lnk _ _ _ (py "bob") sample_now submitted_storage
             ih Hh).
    + vm_compute. reflexivity.
    + eexists. vm_compute. reflexivity.
  - eexists. split.
    + apply (submit_replies lnk _ _ _ (py "bob") sample_now genesis_storage
               ih Hh); vm_compute; reflexivity.
    + simpl. rewrite lookup_insert_eq. by eexists.
Defined.

(** ** Load-time pruning *)

(** The filter of [init_storage], entry by entry: a timestamp whose text
    is below the text of the cutoff is dropped, one whose text is above
    it is kept. *)
Theorem init_storage_prunes (loaded : Storage) (cutoff : pystr)
    (k : pyval) (v : pystr) :
  sent_news loaded !! k = Some v →
  (str_lt v cutoff = true →
   sent_news (init_storage loaded cutoff) !! k = None)
  ∧ (str_lt cutoff v = true →
     sent_news (init_storage loaded cutoff) !! k = Some v).
Proof.
  intros Hk. unfold init_storage, str_lt. simpl. split; intros Hlt.
  - apply map_lookup_filter_None. right. intros v' Hv'.
    rewrite Hk in Hv'. injection Hv' as <-.
    unfold pystr_le. simpl. by destruct (str_le cutoff v).
  - apply map_lookup_filter_Some. split; [done|]. unfold pystr_le. simpl.
    destruct (str_le_total cutoff v) as [H|H]; [done|].
    by rewrite H in Hlt.
Qed.

Lemma init_storage_prunes_witness :
  sent_news (init_storage aged_storage sample_cutoff)
    !! Some (py "https://old.example/") = None
  ∧ sent_news (init_storage aged_storage sample_cutoff)
      !! Some (py "https://new.example/")
    = Some (py "2025-11-02T10:00:00+00:00").
Proof.
  split.
  - apply (init_storage_prunes aged_storage sample_cutoff
             (Some (py "https://old.example/"))
             (py "2025-10-31T10:00:00+00:00")); vm_compute; reflexivity.
  - apply (init_storage_prunes aged_storage sample_cutoff
             (Some (py "https://new.example/"))
             (py "2025-11-02T10:00:00+00:00")); vm_compute; reflexivity.
Defined.

(** C9 — the specification drops the entries of the history whose
    timestamp is more than 30 days before now and keeps the newer ones;
    the code compares the UTC text of the timestamp with the text of the
    host's local time 30 days ago.  Two links are mined on 2025-11-01,
    at 05:00 and at 09:00 UTC; at a start on 2025-12-01 at 08:30:00.25
    UTC the first is 30 days 3 h 30 min old and the second 29 days 23 h
    30 min.  A host on UTC drops the first and keeps the second; a host
    two hours east of UTC drops the second as well, and a host five
    hours west keeps the first. *)
Theorem pruning_follows_local_clock :
  let older := Some (py "https://b.example/2") in
  let newer := Some (py "https://a.example/1") in
  sent_news stamped_storage !! older = Some (py "2025-11-01T05:00:00+00:00")
  ∧ sent_news stamped_storage !! newer = Some (py "2025-11-01T09:00:00+00:00")
  ∧ (thirty_days_us < posix_us (load_at 0) - stamp_instant clock_first)%Z
  ∧ (posix_us (load_at 0) - stamp_instant clock_second < thirty_days_us)%Z
  ∧ cutoff_text (load_at 0) = py "2025-11-01T08:30:00.250000"
  ∧ sent_news (init_storage_at (load_at 0) stamped_storage) !! older = None
  ∧ sent_news (init_storage_at (load_at 0) stamped_storage) !! newer
    = Some (py "2025-11-01T09:00:00+00:00")
  ∧ cutoff_text (load_at 7200) = py "2025-11-01T10:30:00.250000"
  ∧ sent_news (init_storage_at (load_at 7200) stamped_storage) !! newer = None
  ∧ cutoff_text (load_at (-18000)) = py "2025-11-01T03:30:00.250000"
  ∧ sent_news (init_storage_at (load_at (-18000)) stamped_storage) !! older
    = Some (py "2025-11-01T05:00:00+00:00").
Proof. repeat split; vm_compute; reflexivity. Qed.

(** * Further properties *)

(** ** Encoding and the shape of digests *)

Section encoding.

Lemma utf8_char_scalar (c : N) : is_Some (utf8_char c) ↔ scalar c.
Proof.
  unfold utf8_char, scalar.
  destruct (N.ltb_spec c 0x80); [split; [lia|by eexists]|].
  destruct (N.ltb_spec c 0x800); [split; [lia|by eexists]|].
  destruct (N.ltb_spec c 0x10000).
  - destruct (N.leb_spec 0xD800 c), (N.leb_spec c 0xDFFF); simpl;
      (split; [intros [? ?]; try done; lia | intros ?; try (by eexists); lia]).
  - destruct (N.ltb_spec c 0x110000); [split; [lia|by eexists]|].
    split; [by intros [? ?]|lia].
Qed.

Lemma utf8_encode_scalar (s : pystr) :
  is_Some (utf8_encode s) ↔ Forall scalar s.
Proof.
  induction s as [|c s IH]; simpl.
  - split; [by constructor|by eexists].
  - rewrite Forall_cons, <-IH, <-utf8_char_scalar, !is_Some_alt.
    destruct (utf8_char c), (utf8_encode s); tauto.
Qed.

Lemma hex_char_scalar (c : N) : hex_char c → scalar c.
Proof. unfold hex_char, scalar. lia. Qed.

End encoding.

Section digest_shape.

Import SHA256.

Lemma round_length (s : list N) (kw : N * N) : length (round s kw) = length s.
Proof.
  unfold round.
  do 9 (destruct s as [|? s]; try reflexivity).
Qed.

Lemma fold_round_length (kws : list (N * N)) (s : list N) :
  length (fold_left round kws s) = length s.
Proof.
  revert s. induction kws as [|kw kws IH]; intros s; simpl; [done|].
  by rewrite IH, round_length.
Qed.

Lemma compress_length (h block : list N) : length (compress h block) = length h.
Proof.
  unfold compress. rewrite length_zip_with, fold_round_length. lia.
Qed.

Lemma blocks_fold_length (n : nat) (h ws : list N) :
  length (blocks_fold n h ws) = length h.
Proof.
  revert h ws. induction n as [|n IH]; intros h ws; simpl; [done|].
  destruct ws; [done|]. by rewrite IH, compress_length.
Qed.

Lemma be_bytes_length (n : nat) (x : N) : length (be_bytes n x) = n.
Proof. induction n as [|n IH]; simpl; [done|]. by rewrite IH. Qed.

Lemma be_bytes_bound (n : nat) (x : N) : Forall (fun b => b < 256) (be_bytes n x).
Proof.
  induction n as [|n IH]; simpl; constructor; [|done].
  change 0xff with (N.ones 8). rewrite N.land_ones. by apply N.mod_lt.
Qed.

Lemma digest_length (msg : list N) : length (digest msg) = 32%nat.
Proof.
  unfold digest.
  pose proof (blocks_fold_length (length (words (pad msg))) H0 (words (pad msg)))
    as Hl.
  change (length H0) with 8%nat in Hl.
  revert Hl. generalize (blocks_fold (length (words (pad msg))) H0 (words (pad msg))).
  intros l Hl. do 9 (destruct l as [|? l]; try done).
Qed.

Lemma digest_bound (msg : list N) : Forall (fun b => b < 256) (digest msg).
Proof.
  unfold digest. generalize (blocks_fold (length (words (pad msg))) H0 (words (pad msg))).
  intros l. induction l as [|x l IH]; cbn [flat_map]; [constructor|].
  apply Forall_app. split; [apply (be_bytes_bound 4)|done].
Qed.

Lemma hex_digit_char (d : N) : d < 16 → hex_char (hex_digit d).
Proof.
  intros Hd. unfold hex_digit, hex_char.
  destruct (N.ltb_spec d 10); lia.
Qed.

Lemma hexdigest_shape (msg : list N) : hex_digest (hexdigest msg).
Proof.
  unfold hexdigest, hex_digest.
  pose proof (digest_length msg) as Hl. pose proof (digest_bound msg) as Hb.
  revert Hl Hb. generalize (digest msg). intros l Hl Hb. split.
  - clear Hb. do 33 (destruct l as [|? l]; try done).
  - clear Hl. induction Hb as [|b l Hb _ IH]; simpl; [constructor|].
    constructor; [|constructor; [|done]].
    + apply hex_digit_char. rewrite N.shiftr_div_pow2.
      change (2 ^ 4) with 16. apply N.Div0.div_lt_upper_bound. lia.
    + apply hex_digit_char. change 0xf with (N.ones 4).
      rewrite N.land_ones. by apply N.mod_lt.
Qed.

End digest_shape.

(** X1 — [create_iHash] returns a digest exactly when the four fields
    hold only Unicode scalar values, and otherwise raises
    [UnicodeEncodeError]; a returned digest is 64 lower-case hexadecimal
    characters. *)
Theorem create_iHash_outcome (title link source published : pyval) :
  let data := or_empty title ++ or_empty link ++ or_empty source
              ++ or_empty published in
  (Forall scalar data →
   ∃ h : pystr, create_iHash title link source published = Ok h ∧ hex_digest h)
  ∧ (¬ Forall scalar data →
     create_iHash title link source published = Raise UnicodeEncodeError).
Proof.
  intros data. unfold create_iHash, sha256_hex. fold data. split.
  - intros [bs Hbs]%utf8_encode_scalar. rewrite Hbs.
    eexists. split; [done|]. apply hexdigest_shape.
  - intros Hn. destruct (utf8_encode data) as [bs|] eqn:E; [|done].
    exfalso. apply Hn, utf8_encode_scalar. by eexists.
Qed.

Lemma create_iHash_outcome_witness :
  (∃ h : pystr,
     create_iHash (Some (py "X")) (Some (py "https://a.example/1")) None
       (Some []) = Ok h ∧ hex_digest h)
  ∧ create_iHash (Some [0xD800]) None None None = Raise UnicodeEncodeError.
Proof.
  split.
  - apply (create_iHash_outcome (Some (py "X"))
             (Some (py "https://a.example/1")) None (Some [])).
    apply utf8_encode_scalar. eexists. vm_compute. reflexivity.
  - apply (create_iHash_outcome (Some [0xD800]) None None None).
    intros [bs Hbs]%utf8_encode_scalar. vm_compute in Hbs. discriminate Hbs.
Defined.

(** ** More on the selection loop *)

Section select_more.

Context (sent : gmap pyval pystr) (max_news : Z).

(** One turn of the loop, with the test that decides between [break]
    and the next turn. *)
Lemma select_items_step (it : Item) (rest : list Item)
    (sel sel' : list Entry) (ihs ihs' : list pystr) :
  select_items sent max_news (it :: rest) sel ihs = Ok (sel', ihs') →
  select_items sent max_news rest sel ihs = Ok (sel', ihs')
  ∨ ∃ e : Entry,
      made_from it e ∧ sent !! link e = None ∧ (iHash e ∉ ihs)
      ∧ (((max_news ≤ Z.of_nat (length (sel ++ [e])))%Z
          ∧ sel' = sel ++ [e] ∧ ihs' = ihs ++ [iHash e])
         ∨ ((Z.of_nat (length (sel ++ [e])) < max_news)%Z
            ∧ select_items sent max_news rest (sel ++ [e]) (ihs ++ [iHash e])
              = Ok (sel', ihs'))).
Proof.
  intros H. simpl in H.
  destruct (i_link it) as [lnk|] eqn:El; simpl in H; [|done].
  destruct (sent !! lnk) eqn:Es; [by left|].
  destruct (i_title it) as [t|] eqn:Et; simpl in H; [|done].
  destruct (i_source it) as [s|] eqn:Eso; simpl in H; [|done].
  destruct (i_published it) as [p|] eqn:Ep; simpl in H; [|done].
  destruct (create_iHash t lnk s p) as [ih|] eqn:Eh; simpl in H; [|done].
  case_decide as Hin; [by left|].
  destruct t as [t|]; simpl in H; [|done].
  destruct (slice_to 300 (get_default (i_summary it))) as [s300|] eqn:E3;
    simpl in H; [|done].
  right.
  eexists {| title := Some (take 280 t); link := lnk; source := s;
             published := p; summary := s300; iHash := ih |}.
  split; [|split; [done|split; [done|]]].
  - exists t, s, p. simpl. done.
  - simpl. case_decide as Hmax.
    + left. by simplify_eq.
    + right. split; [lia|done].
Qed.

(** The selection holds at most [max_news] entries, and at most one when
    [max_news] is not positive. *)
Lemma select_items_length (items : list Item) (sel sel' : list Entry)
    (ihs ihs' : list pystr) :
  select_items sent max_news items sel ihs = Ok (sel', ihs') →
  sel = [] ∨ (Z.of_nat (length sel) < max_news)%Z →
  (Z.of_nat (length sel') ≤ Z.max 1 max_news)%Z.
Proof.
  revert sel ihs. induction items as [|it rest IH]; intros sel ihs H Hq.
  - simpl in H. simplify_eq. destruct Hq as [->|Hq]; simpl; lia.
  - apply select_items_step in H
      as [H | (e & _ & _ & _ & [(Hmax & -> & ->) | (Hlt & H)])].
    + by apply (IH sel ihs).
    + rewrite length_app. simpl.
      destruct Hq as [->|Hq]; simpl; lia.
    + apply (IH _ _ H). by right.
Qed.

(** The selected entries are made, in order, from candidates taken in
    the order of the list. *)
Lemma select_items_sublist (items : list Item) (sel sel' : list Entry)
    (ihs ihs' : list pystr) :
  select_items sent max_news items sel ihs = Ok (sel', ihs') →
  ∃ (chosen : list Item) (new : list Entry),
    sel' = sel ++ new ∧ chosen `sublist_of` items
    ∧ Forall2 made_from chosen new.
Proof.
  revert sel ihs. induction items as [|it rest IH]; intros sel ihs H.
  - simpl in H. simplify_eq. exists [], []. by rewrite app_nil_r.
  - apply select_items_step in H
      as [H | (e & Hm & _ & _ & [(Hmax & -> & ->) | (Hlt & H)])].
    + destruct (IH _ _ H) as (chosen & new & -> & Hsub & Hf).
      exists chosen, new. split; [done|]. split; [|done].
      by apply sublist_cons.
    + exists [it], [e]. split; [done|]. split.
      * apply sublist_skip, sublist_nil_l.
      * by repeat constructor.
    + destruct (IH _ _ H) as (chosen & new & -> & Hsub & Hf).
      exists (it :: chosen), (e :: new). rewrite <-app_assoc. split; [done|].
      split; [by apply sublist_skip|by constructor].
Qed.

(** The digests gathered by the loop are pairwise distinct texts of
    digests. *)
Lemma select_items_digests (items : list Item) (sel : list Entry)
    (ihs : list pystr) :
  select_items sent max_news items [] [] = Ok (sel, ihs) →
  NoDup ihs ∧ Forall hex_digest ihs.
Proof.
  apply (select_items_inv sent max_news
           (fun _ ihs => NoDup ihs ∧ Forall hex_digest ihs)).
  - intros sel0 ihs0 it e [Hnd Hf] _ (t & s & p & _ & _ & _ & _ & Hh & _) _ Hn.
    split.
    + apply NoDup_app. split; [done|]. split; [|apply NoDup_singleton].
      intros x Hx ->%list_elem_of_singleton. done.
    + apply Forall_app. split; [done|]. constructor; [|constructor].
      unfold create_iHash, sha256_hex in Hh.
      destruct (utf8_encode _); [|done]. injection Hh as <-.
      apply hexdigest_shape.
  - split; constructor.
Qed.

End select_more.

(** The block hash of texts of digests is always computed. *)
Lemma compute_block_hash_digests (ihs : list pystr) :
  Forall hex_digest ihs →
  ∃ h : pystr, compute_block_hash ihs = Ok h ∧ hex_digest h.
Proof.
  intros Hf. unfold compute_block_hash, sha256_hex.
  assert (Hs : Forall scalar (join (sorted ihs))).
  { unfold join, sorted. apply Forall_concat.
    rewrite merge_sort_Permutation.
    eapply Forall_impl; [exact Hf|]. intros s [_ Hs].
    eapply Forall_impl; [exact Hs|]. apply hex_char_scalar. }
  apply utf8_encode_scalar in Hs as [bs ->].
  eexists. split; [done|]. apply hexdigest_shape.
Qed.

(** ** More on [build_block_from_items] *)

(** Closes the branches of a sample run that the run does not take. *)
Ltac not_this_run E := vm_compute in E; discriminate E.

(** X2 — a build raises exactly when the scan of the candidates raises,
    with the same exception: once the selection is made, hashing the
    block cannot fail. *)
Theorem build_raises_in_selection (items : list Item) (max_news : Z)
    (now : pystr) (st : Storage) (e : exn) :
  build_block_from_items items max_news now st = Raise e
  ↔ select_items (sent_news st) max_news items [] [] = Raise e.
Proof.
  unfold build_block_from_items.
  destruct (select_items _ _ _ _ _) as [[sel ihs]|e'] eqn:Es; simpl.
  2: { split; intros H; injection H as ->; done. }
  split; [|done]. destruct sel as [|x sel]; [done|].
  destruct (select_items_digests _ _ _ _ _ Es) as [_ Hd].
  by destruct (compute_block_hash_digests ihs Hd) as (h & -> & _).
Qed.

(** X3 — the block a build returns has at least one entry and at most
    [max_news] entries; when [max_news] is zero or negative it has
    exactly one. *)
Theorem build_block_size (items : list Item) (max_news : Z) (now : pystr)
    (st st' : Storage) (b : Block) :
  build_block_from_items items max_news now st = Ok (Some b, st') →
  (1 ≤ Z.of_nat (length (news b)) ≤ Z.max 1 max_news)%Z.
Proof.
  intros (sel & ihs & Hs & Hne & _ & -> & _)%build_Some_inv. split.
  - destruct sel; [done|]. simpl. lia.
  - apply (select_items_length _ _ _ _ _ _ _ Hs). by left.
Qed.

Lemma build_block_size_witness :
  ∃ (b : Block) (st' : Storage),
    build_block_from_items [item_A; item_B] 0 sample_now genesis_storage
    = Ok (Some b, st')
    ∧ (1 ≤ Z.of_nat (length (news b)) ≤ Z.max 1 0)%Z.
Proof.
  destruct (build_block_from_items [item_A; item_B] 0 sample_now
              genesis_storage) as [[[b|] st']|e] eqn:E.
  - exists b, st'. split; [reflexivity|].
    exact (build_block_size _ _ _ _ _ _ E).
  - not_this_run E.
  - not_this_run E.
Defined.

(** X4 — within one block the iHashes are pairwise distinct, and each
    iHash and the blockhash are 64 lower-case hexadecimal characters. *)
Theorem build_block_digests (items : list Item) (max_news : Z) (now : pystr)
    (st st' : Storage) (b : Block) :
  build_block_from_items items max_news now st = Ok (Some b, st') →
  NoDup (map iHash (news b))
  ∧ Forall hex_digest (map iHash (news b))
  ∧ hex_digest (blockhash b).
Proof.
  intros (sel & ihs & Hs & _ & Hh & -> & _)%build_Some_inv.
  destruct (select_items_digests _ _ _ _ _ Hs) as [Hnd Hd].
  rewrite <-(select_items_iHashes _ _ _ _ _ Hs).
  split; [done|]. split; [done|].
  destruct (compute_block_hash_digests ihs Hd) as (h & Hh' & Hhd).
  rewrite Hh in Hh'. by injection Hh' as ->.
Qed.

Lemma build_block_digests_witness :
  ∃ (b : Block) (st' : Storage),
    build_block_from_items [item_A; item_A; item_B] 5 sample_now
      genesis_storage = Ok (Some b, st')
    ∧ NoDup (map iHash (news b))
    ∧ Forall hex_digest (map iHash (news b))
    ∧ hex_digest (blockhash b).
Proof.
  destruct (build_block_from_items [item_A; item_A; item_B] 5 sample_now
              genesis_storage) as [[[b|] st']|e] eqn:E.
  - exists b, st'. split; [reflexivity|].
    exact (build_block_digests _ _ _ _ _ _ E).
  - not_this_run E.
  - not_this_run E.
Defined.

(** X5 — the entries of a block follow the order of the candidates: they
    are made, one for one and in order, from a sub-list of the candidate
    list, and none of their links was in the history before the build. *)
Theorem build_block_order (items : list Item) (max_news : Z) (now : pystr)
    (st st' : Storage) (b : Block) :
  build_block_from_items items max_news now st = Ok (Some b, st') →
  (∃ chosen : list Item,
     chosen `sublist_of` items ∧ Forall2 made_from chosen (news b))
  ∧ ∀ e : Entry, e ∈ news b → sent_news st !! link e = None.
Proof.
  intros (sel & ihs & Hs & _ & _ & -> & _)%build_Some_inv. split.
  - destruct (select_items_sublist _ _ _ _ _ _ _ Hs)
      as (chosen & new & -> & Hsub & Hf).
    by exists chosen.
  - intros e He. by apply (select_items_made_from _ _ _ _ _ Hs e He).
Qed.

Lemma build_block_order_witness :
  ∃ (b : Block) (st' : Storage),
    build_block_from_items [item_A; item_A2; item_B] 2 sample_now
      genesis_storage = Ok (Some b, st')
    ∧ (∃ chosen : list Item,
         chosen `sublist_of` [item_A; item_A2; item_B]
         ∧ Forall2 made_from chosen (news b))
    ∧ ∀ e : Entry, e ∈ news b → sent_news genesis_storage !! link e = None.
Proof.
  destruct (build_block_from_items [item_A; item_A2; item_B] 2 sample_now
              genesis_storage) as [[[b|] st']|e] eqn:E.
  - exists b, st'. split; [reflexivity|].
    exact (build_block_order _ _ _ _ _ _ E).
  - not_this_run E.
  - not_this_run E.
Defined.

(** X6 — a build changes the history and the pending map at the links of
    the new block's entries only: a candidate that was not selected is
    as eligible after the build as before. *)
Theorem build_frame (items : list Item) (max_news : Z) (now : pystr)
    (st st' : Storage) (b : Block) :
  build_block_from_items items max_news now st = Ok (Some b, st') →
  ∀ k : pyval, k ∉ map link (news b) →
    sent_news st' !! k = sent_news st !! k
    ∧ pending st' !! k = pending st !! k.
Proof.
  intros (sel & ihs & _ & _ & _ & -> & _ & _ & _ & Hs & Hp & _)%build_Some_inv
    k Hk.
  destruct (mark_sent_fold now sel (sent_news st) (pending st) k) as [H1 H2].
  rewrite Hs, Hp, H1, H2. by rewrite !decide_False by done.
Qed.

Lemma build_frame_witness :
  ∃ (b : Block) (st' : Storage),
    build_block_from_items [item_A; item_B] 1 sample_now submitted_storage
    = Ok (Some b, st')
    ∧ sent_news st' !! Some (py "https://b.example/2")
      = sent_news submitted_storage !! Some (py "https://b.example/2")
    ∧ pending st' !! Some (py "https://b.example/2")
      = pending submitted_storage !! Some (py "https://b.example/2").
Proof.
  destruct (build_block_from_items [item_A; item_B] 1 sample_now
              submitted_storage) as [[[b|] st']|e] eqn:E.
  - exists b, st'. split; [reflexivity|].
    apply (build_frame _ _ _ _ _ _ E).
    vm_compute in E. injection E as <- _. vm_compute.
    intros [Hx|Hx]%elem_of_cons; [discriminate Hx|].
    by apply elem_of_nil in Hx.
  - not_this_run E.
  - not_this_run E.
Defined.

Lemma select_items_skip (sent : gmap pyval pystr) (max_news : Z)
    (skipped items : list Item) (sel : list Entry) (ihs : list pystr) :
  (∀ x, x ∈ skipped → ∃ l, i_link x = Some l ∧ is_Some (sent !! l)) →
  select_items sent max_news (skipped ++ items) sel ihs
  = select_items sent max_news items sel ihs.
Proof.
  induction skipped as [|x skipped IH]; intros Hall; [done|].
  destruct (Hall x) as (l & Hl & [ts Hts]); [by left|].
  simpl. rewrite Hl. simpl. rewrite Hts. apply IH.
  intros y Hy. apply Hall. by right.
Qed.

(** X7 — with [max_news] at most 1 the block holds the first eligible
    candidate alone: candidates already in the history are passed over,
    the first fresh one is stored, and the candidates after it are not
    examined, whatever they are. *)
Theorem build_first_eligible (skipped rest : list Item) (it : Item)
    (max_news : Z) (now : pystr) (st : Storage)
    (lnk s p : pyval) (t sm : pystr) :
  (max_news ≤ 1)%Z →
  (∀ x, x ∈ skipped →
     ∃ l, i_link x = Some l ∧ is_Some (sent_news st !! l)) →
  i_link it = Some lnk → sent_news st !! lnk = None →
  i_title it = Some (Some t) → i_source it = Some s →
  i_published it = Some p → get_default (i_summary it) = Some sm →
  Forall scalar (t ++ or_empty lnk ++ or_empty s ++ or_empty p) →
  ∃ (b : Block) (st' : Storage) (e : Entry),
    build_block_from_items (skipped ++ it :: rest) max_news now st
    = Ok (Some b, st')
    ∧ news b = [e] ∧ made_from it e.
Proof.
  intros Hmax Hskip Hl Hs Ht Hso Hp Hsm Hsc.
  destruct (create_iHash_outcome (Some t) lnk s p) as [Hok _].
  destruct (Hok Hsc) as (ih & Hih & Hd).
  unfold build_block_from_items.
  rewrite (select_items_skip _ _ _ _ _ _ Hskip). simpl.
  rewrite Hl. simpl. rewrite Hs, Ht. simpl. rewrite Hso. simpl.
  rewrite Hp. simpl. rewrite Hih. simpl.
  rewrite Hsm. simpl. rewrite decide_True by lia. simpl.
  destruct (compute_block_hash_digests [ih]) as (h & -> & _);
    [constructor; [done|constructor]|].
  simpl. eexists _, _, _. split; [reflexivity|]. split; [reflexivity|].
  exists t, s, p. simpl. done.
Qed.

Lemma build_first_eligible_witness :
  ∃ (b : Block) (st' : Storage) (e : Entry),
    build_block_from_items ([item_A2] ++ item_B :: [item_no_link])
      1 sample_now broadcast_storage = Ok (Some b, st')
    ∧ news b = [e] ∧ made_from item_B e.
Proof.
  apply (build_first_eligible [item_A2] [item_no_link] item_B 1 sample_now
           broadcast_storage (Some (py "https://b.example/2"))
           (Some (py "Feed")) (Some (py "2025-11-30")) (py "Y")
           (py "about Y")).
  - lia.
  - intros x ->%list_elem_of_singleton.
    exists (Some (py "https://a.example/1")). split; [reflexivity|].
    exists sample_now. vm_compute. reflexivity.
  - reflexivity.
  - vm_compute. reflexivity.
  - reflexivity.
  - reflexivity.
  - reflexivity.
  - reflexivity.
  - apply utf8_encode_scalar. eexists. vm_compute. reflexivity.
Defined.

(** X8 — what the scan does with its first candidate.  A candidate
    without a [link] key raises [KeyError].  A candidate whose link is
    in the history is passed over before any other key is read.  A
    fresh candidate that lacks [title], [source] or [published] raises
    [KeyError]; one whose title is [None] is hashed with the empty
    string for the title and then raises [TypeError] when the title is
    sliced. *)
Theorem build_first_candidate (it : Item) (rest : list Item) (max_news : Z)
    (now : pystr) (st : Storage) :
  (i_link it = None →
   build_block_from_items (it :: rest) max_news now st = Raise KeyError)
  ∧ (∀ lnk, i_link it = Some lnk → is_Some (sent_news st !! lnk) →
     build_block_from_items (it :: rest) max_news now st
     = build_block_from_items rest max_news now st)
  ∧ (∀ lnk, i_link it = Some lnk → sent_news st !! lnk = None →
     i_title it = None ∨ i_source it = None ∨ i_published it = None →
     build_block_from_items (it :: rest) max_news now st = Raise KeyError)
  ∧ (∀ lnk s p, i_link it = Some lnk → sent_news st !! lnk = None →
     i_title it = Some None → i_source it = Some s →
     i_published it = Some p →
     Forall scalar (or_empty lnk ++ or_empty s ++ or_empty p) →
     build_block_from_items (it :: rest) max_news now st = Raise TypeError).
Proof.
  unfold build_block_from_items. repeat split.
  - intros Hl. simpl. by rewrite Hl.
  - intros lnk Hl [ts Hts]. simpl. rewrite Hl. simpl. by rewrite Hts.
  - intros lnk Hl Hs Hk. simpl. rewrite Hl. simpl. rewrite Hs.
    destruct (i_title it) as [t|]; simpl; [|done].
    destruct (i_source it) as [s|]; simpl; [|done].
    destruct (i_published it) as [p|]; simpl; [|done].
    by destruct Hk as [?|[?|?]].
  - intros lnk s p Hl Hs Ht Hso Hp Hsc. simpl. rewrite Hl. simpl.
    rewrite Hs, Ht. simpl. rewrite Hso. simpl. rewrite Hp. simpl.
    destruct (create_iHash_outcome None lnk s p) as [Hok _].
    by destruct (Hok Hsc) as (ih & -> & _).
Qed.

Lemma build_first_candidate_witness :
  build_block_from_items [item_no_link; item_B] 5 sample_now genesis_storage
  = Raise KeyError
  ∧ build_block_from_items [item_A; item_no_link] 5 sample_now
      broadcast_storage
    = build_block_from_items [item_no_link] 5 sample_now broadcast_storage
  ∧ build_block_from_items [item_no_title; item_B] 5 sample_now
      genesis_storage = Raise TypeError.
Proof.
  split; [|split].
  - destruct (build_first_candidate item_no_link [item_B] 5 sample_now
                genesis_storage) as (H & _).
    by apply H.
  - destruct (build_first_candidate item_A [item_no_link] 5 sample_now
                broadcast_storage) as (_ & H & _).
    apply (H (Some (py "https://a.example/1"))); [reflexivity|].
    exists sample_now. vm_compute. reflexivity.
  - destruct (build_first_candidate item_no_title [item_B] 5 sample_now
                genesis_storage) as (_ & _ & _ & H).
    apply (H (Some (py "https://d.example/4")) (Some (py "Feed"))
             (Some (py "")));
      [reflexivity | vm_compute; reflexivity | reflexivity | reflexivity
      | reflexivity | ].
    apply utf8_encode_scalar. eexists. vm_compute. reflexivity.
Defined.

(** ** The ledger along a run *)

Section ledger.

(** The ledger of a reached storage: the genesis block, then the mined
    blocks, the one at index [i + 1] numbered [i + 2]. *)
Lemma mined_blocks_shape (st : Storage) :
  mined_from_genesis st →
  ∃ rest : list Block,
    blocks st = genesis_block :: rest
    ∧ ∀ (i : nat) (b : Block),
        rest !! i = Some b → block_number b = (Z.of_nat i + 2)%Z.
Proof.
  induction 1 as [loaded cutoff Hl | st st' items max_news now b _ IH Hb].
  - exists []. unfold init_storage. rewrite Hl, create_genesis_block_ok.
    split; [done|]. by intros [|i] b.
  - destruct IH as (rest & Hbs & Hnum).
    apply build_Some_inv in Hb
      as (_ & _ & _ & _ & _ & _ & Hn & _ & _ & _ & _ & ->).
    exists (rest ++ [b]). rewrite Hbs. split; [done|].
    intros i c Hi. apply lookup_app_Some in Hi as [Hi | [Hge Hi]].
    + by apply Hnum.
    + apply list_lookup_singleton_Some in Hi as [Hi ->].
      rewrite Hn, Hbs. simpl. lia.
Qed.

Lemma find_block_numbered (rest : list Block) (k n : Z) :
  (∀ (i : nat) (b : Block),
      rest !! i = Some b → block_number b = (Z.of_nat i + k)%Z) →
  find_block n rest
  = if decide (k ≤ n)%Z then rest !! Z.to_nat (n - k) else None.
Proof.
  unfold find_block. revert k.
  induction rest as [|c rest IH]; intros k Hnum.
  - simpl. by case_decide.
  - pose proof (Hnum 0%nat c eq_refl) as Hc. simpl in Hc.
    rewrite filter_cons.
    assert (Hrest : ∀ (i : nat) (b : Block),
               rest !! i = Some b → block_number b = (Z.of_nat i + (k + 1))%Z).
    { intros i b Hi. rewrite (Hnum (S i) b Hi). lia. }
    destruct (decide (block_number c = n)) as [Heq|Hneq].
    + simpl. rewrite decide_True by lia.
      by replace (n - k)%Z with 0%Z by lia.
    + rewrite (IH (k + 1)%Z Hrest).
      destruct (decide (k ≤ n)%Z) as [Hle|Hgt].
      * rewrite decide_True by lia.
        replace (Z.to_nat (n - k)) with (S (Z.to_nat (n - (k + 1)))) by lia.
        done.
      * by rewrite decide_False by lia.
Qed.

Lemma find_block_cons (n : Z) (c : Block) (rest : list Block) :
  find_block n (c :: rest)
  = if decide (block_number c = n) then Some c else find_block n rest.
Proof. unfold find_block. rewrite filter_cons. by case_decide. Qed.

End ledger.

(** X9 — genesis immutability and numbering: on every storage reached
    from a first start, block 0 of the ledger is the fixed genesis block,
    however many blocks were mined, and the block at index [i + 1] is
    numbered [i + 2]. *)
Theorem mined_ledger_numbering (st : Storage) :
  mined_from_genesis st →
  blocks st !! 0%nat = Some genesis_block
  ∧ ∀ (i : nat) (b : Block),
      blocks st !! S i = Some b → block_number b = (Z.of_nat i + 2)%Z.
Proof.
  intros (rest & -> & Hnum)%mined_blocks_shape. split; [done|].
  intros i b Hi. by apply Hnum.
Qed.

Lemma mined_ledger_numbering_witness :
  blocks sample_storage !! 0%nat = Some genesis_block
  ∧ ∀ (i : nat) (b : Block),
      blocks sample_storage !! S i = Some b →
      block_number b = (Z.of_nat i + 2)%Z.
Proof. exact (mined_ledger_numbering sample_storage sample_storage_mined). Defined.

(** X10 — the [/block] lookup on a reached storage: number 0 finds the
    genesis block, number 1 finds nothing, and a number [n] of 2 or more
    finds the block at index [n - 1] when the ledger is that long. *)
Theorem find_block_mined (st : Storage) :
  mined_from_genesis st →
  find_block 0 (blocks st) = Some genesis_block
  ∧ find_block 1 (blocks st) = None
  ∧ ∀ n : Z, (2 ≤ n)%Z →
      find_block n (blocks st) = blocks st !! Z.to_nat (n - 1).
Proof.
  intros (rest & -> & Hnum)%mined_blocks_shape.
  rewrite !find_block_cons.
  change (block_number genesis_block) with 0%Z.
  split; [by rewrite decide_True|]. split.
  - rewrite decide_False by lia.
    rewrite (find_block_numbered rest 2 1 Hnum).
    by rewrite decide_False by lia.
  - intros n Hn. rewrite find_block_cons.
    change (block_number genesis_block) with 0%Z.
    rewrite decide_False by lia.
    rewrite (find_block_numbered rest 2 n Hnum), decide_True by lia.
    replace (Z.to_nat (n - 1)) with (S (Z.to_nat (n - 2))) by lia. done.
Qed.

Lemma find_block_mined_witness :
  find_block 0 (blocks sample_storage) = Some genesis_block
  ∧ find_block 1 (blocks sample_storage) = None
  ∧ ∀ n : Z, (2 ≤ n)%Z →
      find_block n (blocks sample_storage)
      = blocks sample_storage !! Z.to_nat (n - 1).
Proof. exact (find_block_mined sample_storage sample_storage_mined). Defined.

(** ** The history and the queue *)

Section queues.

Lemma init_storage_disjoint (loaded : Storage) (cutoff : pystr) :
  queues_disjoint loaded → queues_disjoint (init_storage loaded cutoff).
Proof.
  intros Hd k Hk. unfold init_storage in *. simpl in *.
  apply map_lookup_filter_None. left. by apply Hd.
Qed.

Lemma submit_disjoint (lnk : pystr) (title source published : pyval)
    (user now : pystr) (st st' : Storage) (r : submit_reply) :
  queues_disjoint st →
  submit lnk title source published user now st = Ok (r, st') →
  queues_disjoint st'.
Proof.
  intros Hd. unfold submit.
  destruct (create_iHash _ _ _ _) as [ih|]; simpl; [|done].
  destruct (sent_news st !! Some lnk) eqn:Es; [by intros [= _ <-]|].
  destruct (pending st !! Some lnk) eqn:Ep; [by intros [= _ <-]|].
  intros [= _ <-] k Hk. simpl in *.
  destruct (decide (k = Some lnk)) as [->|Hne]; [done|].
  rewrite lookup_insert_ne in Hk by done. by apply Hd.
Qed.

Lemma build_disjoint (items : list Item) (max_news : Z) (now : pystr)
    (st st' : Storage) (ob : option Block) :
  queues_disjoint st →
  build_block_from_items items max_news now st = Ok (ob, st') →
  queues_disjoint st'.
Proof.
  intros Hd Hb. destruct ob as [b|].
  - apply build_Some_inv in Hb
      as (sel & ihs & _ & _ & _ & _ & _ & _ & _ & Hs & Hp & _).
    intros k Hk.
    destruct (mark_sent_fold now sel (sent_news st) (pending st) k) as [H1 H2].
    rewrite Hp, H2 in Hk. rewrite Hs, H1.
    destruct (decide (k ∈ map link sel)); [by destruct Hk|]. by apply Hd.
  - apply build_None_inv in Hb. by subst.
Qed.

End queues.

Lemma submitted_storage_disjoint : queues_disjoint submitted_storage.
Proof.
  assert (H0 : queues_disjoint empty_storage) by (by intros k [x Hx]).
  pose proof (init_storage_disjoint empty_storage
                (py "2025-11-01T10:00:00.000000") H0) as H1.
  unfold submitted_storage.
  destruct (submit (py "https://a.example/1") (Some (py "X"))
       (Some (py "user-submission")) (Some (py "")) (py "alice")
       (py "2025-11-30T09:00:00.000000+00:00") genesis_storage)
    as [[r st']|e] eqn:E; [|exact H1].
  exact (submit_disjoint _ _ _ _ _ _ _ _ _ H1 E).
Defined.

(** X11 — no link is both queued and in the history: the three
    operations that write the storage ([init_storage], [submit],
    [build_block_from_items]) each keep that true. *)
Theorem queues_disjoint_preserved (st : Storage) :
  queues_disjoint st →
  (∀ cutoff, queues_disjoint (init_storage st cutoff))
  ∧ (∀ lnk title source published user now r st',
       submit lnk title source published user now st = Ok (r, st') →
       queues_disjoint st')
  ∧ (∀ items max_news now ob st',
       build_block_from_items items max_news now st = Ok (ob, st') →
       queues_disjoint st').
Proof.
  intros Hd. split; [|split].
  - intros cutoff. by apply init_storage_disjoint.
  - intros lnk title source published user now r st'.
    by apply submit_disjoint.
  - intros items max_news now ob st'. by apply build_disjoint.
Qed.

Lemma queues_disjoint_preserved_witness :
  queues_disjoint empty_storage
  ∧ queues_disjoint genesis_storage
  ∧ queues_disjoint submitted_storage.
Proof.
  assert (H0 : queues_disjoint empty_storage) by (by intros k [x Hx]).
  assert (H1 : queues_disjoint genesis_storage).
  { destruct (queues_disjoint_preserved empty_storage H0) as (H & _).
    apply H. }
  split; [exact H0|]. split; [exact H1|].
  destruct (queues_disjoint_preserved genesis_storage H1) as (_ & H & _).
  destruct (submit (py "https://a.example/1") (Some (py "X"))
       (Some (py "user-submission")) (Some (py "")) (py "alice")
       (py "2025-11-30T09:00:00.000000+00:00") genesis_storage)
    as [[r st']|e] eqn:E.
  - unfold submitted_storage. rewrite E. simpl. exact (H _ _ _ _ _ _ _ _ E).
  - vm_compute in E. discriminate E.
Defined.

Lemma submit_link_scalar (lnk : pystr) (title source published : pyval)
    (ih : pystr) :
  create_iHash title (Some lnk) source published = Ok ih → Forall scalar lnk.
Proof.
  intros Hh.
  destruct (decide (Forall scalar (or_empty title ++ or_empty (Some lnk)
                                   ++ or_empty source ++ or_empty published)))
    as [Hs|Hn].
  - simpl in Hs. by apply Forall_app in Hs as [_ [Hs _]%Forall_app].
  - destruct (create_iHash_outcome title (Some lnk) source published)
      as [_ Hr].
    rewrite (Hr Hn) in Hh. done.
Qed.

(** What a submission does with its text before it looks at the two
    dictionaries. *)
Lemma submit_hashes_first (lnk : pystr) (title source published : pyval)
    (user now : pystr) (st : Storage) :
  Forall scalar lnk →
  (Forall scalar (or_empty title ++ or_empty source ++ or_empty published) →
   ∃ ih, create_iHash title (Some lnk) source published = Ok ih)
  ∧ (¬ Forall scalar (or_empty title ++ or_empty source ++ or_empty published) →
     submit lnk title source published user now st = Raise UnicodeEncodeError).
Proof.
  intros Hl.
  destruct (create_iHash_outcome title (Some lnk) source published)
    as [Hok Hr]. simpl in Hok, Hr. split.
  - intros Hs. destruct Hok as (ih & Hih & _); [|by exists ih].
    rewrite !Forall_app in *. tauto.
  - intros Hn. unfold submit. rewrite Hr; [done|].
    intros Hs. apply Hn. rewrite !Forall_app in *. tauto.
Qed.

(** X12 — submitting twice: after a submission that was queued, a second
    submission of the same link is answered [AlreadyPending] and changes
    nothing whenever the title, source and date found for it can be
    encoded; when they cannot, the handler raises [UnicodeEncodeError],
    as the iHash is computed before the queue is consulted. *)
Theorem submit_twice (lnk : pystr) (title source published : pyval)
    (user now : pystr) (st st' : Storage) (ih : pystr)
    (title2 source2 published2 : pyval) (user2 now2 : pystr) :
  submit lnk title source published user now st = Ok (Submitted ih, st') →
  (Forall scalar (or_empty title2 ++ or_empty source2 ++ or_empty published2) →
   submit lnk title2 source2 published2 user2 now2 st'
   = Ok (AlreadyPending, st'))
  ∧ (¬ Forall scalar (or_empty title2 ++ or_empty source2
                      ++ or_empty published2) →
     submit lnk title2 source2 published2 user2 now2 st'
     = Raise UnicodeEncodeError).
Proof.
  intros H.
  assert (Hl : Forall scalar lnk).
  { unfold submit in H.
    destruct (create_iHash title _ _ _) as [h|] eqn:Eh; simpl in H; [|done].
    by apply (submit_link_scalar lnk title source published h). }
  destruct (submit_hashes_first lnk title2 source2 published2 user2 now2 st' Hl)
    as [Hok Hr].
  split; [|exact Hr]. intros [ih2 Hh2]%Hok.
  unfold submit in H.
  destruct (create_iHash title _ _ _) as [h|]; simpl in H; [|done].
  destruct (sent_news st !! Some lnk) eqn:Es; [done|].
  destruct (pending st !! Some lnk) eqn:Ep; [done|].
  injection H as _ <-. unfold submit. rewrite Hh2. simpl.
  by rewrite Es, lookup_insert_eq.
Qed.

Lemma submit_twice_witness :
  ∃ (ih : pystr) (st' : Storage),
    submit (py "https://a.example/1") (Some (py "X"))
      (Some (py "user-submission")) (Some (py "")) (py "alice") sample_now
      genesis_storage = Ok (Submitted ih, st')
    ∧ submit (py "https://a.example/1") (Some (py "X, updated"))
        (Some (py "Feed")) None (py "bob") sample_now st'
      = Ok (AlreadyPending, st')
    ∧ submit (py "https://a.example/1") (Some [0xD800])
        (Some (py "Feed")) None (py "bob") sample_now st'
      = Raise UnicodeEncodeError.
Proof.
  destruct (submit (py "https://a.example/1") (Some (py "X"))
      (Some (py "user-submission")) (Some (py "")) (py "alice") sample_now
      genesis_storage) as [[[| |ih] st']|e] eqn:E;
    try (vm_compute in E; discriminate E).
  exists ih, st'. split; [reflexivity|]. split.
  - apply (submit_twice _ _ _ _ _ _ _ _ _ (Some (py "X, updated"))
             (Some (py "Feed")) None (py "bob") sample_now E).
    apply utf8_encode_scalar. eexists. vm_compute. reflexivity.
  - apply (submit_twice _ _ _ _ _ _ _ _ _ (Some [0xD800])
             (Some (py "Feed")) None (py "bob") sample_now E).
    intros [bs Hbs]%utf8_encode_scalar. vm_compute in Hbs. discriminate Hbs.
Defined.

Lemma build_marks_broadcast_links (items : list Item) (max_news : Z)
    (now : pystr) (st st' : Storage) (b : Block) :
  build_block_from_items items max_news now st = Ok (Some b, st') →
  ∀ e : Entry, e ∈ news b → is_Some (sent_news st' !! link e).
Proof.
  intros (sel & ihs & _ & _ & _ & Hn & _ & _ & _ & Hs & _)%build_Some_inv e He.
  destruct (mark_sent_fold now sel (sent_news st) (pending st) (link e))
    as [H1 _].
  rewrite Hs, H1, decide_True; [by eexists|].
  rewrite <-Hn. by apply list_elem_of_fmap_2.
Qed.

(** The link of a stored entry went through [create_iHash]. *)
Lemma stored_iHash_scalar (items : list Item) (max_news : Z) (now : pystr)
    (st st' : Storage) (b : Block) :
  build_block_from_items items max_news now st = Ok (Some b, st') →
  ∀ e : Entry, e ∈ news b →
    Forall scalar (or_empty (link e)) ∧ hex_digest (iHash e).
Proof.
  intros (sel & ihs & Hs & _ & _ & -> & _)%build_Some_inv e He.
  destruct (select_items_made_from _ _ _ _ _ Hs e He)
    as (_ & it & _ & t & s & p & _ & _ & _ & _ & Hh & _).
  destruct (decide (Forall scalar (or_empty (Some t) ++ or_empty (link e)
                                   ++ or_empty s ++ or_empty p)))
    as [Hsc|Hn].
  - destruct (create_iHash_outcome (Some t) (link e) s p) as [Hok _].
    destruct (Hok Hsc) as (h & Hh' & Hd). rewrite Hh in Hh'.
    injection Hh' as <-. split; [|done]. simpl in Hsc.
    by apply Forall_app in Hsc as [_ [Hsc _]%Forall_app].
  - destruct (create_iHash_outcome (Some t) (link e) s p) as [_ Hr].
    rewrite (Hr Hn) in Hh. done.
Qed.

(** X13 — mining then resubmitting: after a build that returned a block,
    submitting the link of any of its entries is answered
    [AlreadyBroadcast] and changes nothing whenever the title, source and
    date found for it can be encoded; when they cannot, the handler
    raises [UnicodeEncodeError], as the iHash is computed before the
    history is consulted. *)
Theorem submit_after_build (items : list Item) (max_news : Z)
    (now : pystr) (st st' : Storage) (b : Block) (e : Entry)
    (lnk : pystr) (title source published : pyval) (user now2 : pystr) :
  build_block_from_items items max_news now st = Ok (Some b, st') →
  e ∈ news b → link e = Some lnk →
  (Forall scalar (or_empty title ++ or_empty source ++ or_empty published) →
   submit lnk title source published user now2 st'
   = Ok (AlreadyBroadcast, st'))
  ∧ (¬ Forall scalar (or_empty title ++ or_empty source
                      ++ or_empty published) →
     submit lnk title source published user now2 st'
     = Raise UnicodeEncodeError).
Proof.
  intros Hb He Hl.
  assert (Hsl : Forall scalar lnk).
  { destruct (stored_iHash_scalar _ _ _ _ _ _ Hb e He) as [Hs _].
    by rewrite Hl in Hs. }
  destruct (submit_hashes_first lnk title source published user now2 st' Hsl)
    as [Hok Hr].
  split; [|exact Hr]. intros [ih Hh]%Hok.
  destruct (build_marks_broadcast_links _ _ _ _ _ _ Hb e He) as [ts Hts].
  rewrite Hl in Hts.
  assert (Hx : sent_news st' !! Some lnk = Some ts) by exact Hts.
  unfold submit. rewrite Hh. simpl. by rewrite Hx.
Qed.

Lemma submit_after_build_witness :
  ∃ (b : Block) (st' : Storage),
    build_block_from_items [item_A; item_B] 5 sample_now submitted_storage
    = Ok (Some b, st')
    ∧ submit (py "https://a.example/1") (Some (py "X"))
        (Some (py "user-submission")) (Some (py "")) (py "alice") sample_now
        st' = Ok (AlreadyBroadcast, st')
    ∧ submit (py "https://a.example/1") (Some [0xD800])
        (Some (py "user-submission")) (Some (py "")) (py "alice") sample_now
        st' = Raise UnicodeEncodeError.
Proof.
  destruct (build_block_from_items [item_A; item_B] 5 sample_now
              submitted_storage) as [[[b|] st']|e] eqn:E;
    try (vm_compute in E; discriminate E).
  exists b, st'. split; [reflexivity|].
  assert (He : ∃ e : Entry,
             e ∈ news b ∧ link e = Some (py "https://a.example/1")).
  { pose proof E as E'. vm_compute in E'. injection E' as <- _.
    eexists. split; [by left|reflexivity]. }
  destruct He as (e & He & Hl).
  split.
  - apply (submit_after_build _ _ _ _ _ _ e _ (Some (py "X"))
             (Some (py "user-submission")) (Some (py "")) (py "alice")
             sample_now E He Hl).
    apply utf8_encode_scalar. eexists. vm_compute. reflexivity.
  - apply (submit_after_build _ _ _ _ _ _ e _ (Some [0xD800])
             (Some (py "user-submission")) (Some (py "")) (py "alice")
             sample_now E He Hl).
    intros [bs Hbs]%utf8_encode_scalar. vm_compute in Hbs. discriminate Hbs.
Defined.

(** X14 — no link is mined twice in a row: the entries of the block
    returned by the build that follows another share no link with the
    entries of the earlier block, from whatever candidates it is made. *)
Theorem build_twice_links (items1 items2 : list Item) (max1 max2 : Z)
    (now1 now2 : pystr) (st st1 st2 : Storage) (b1 b2 : Block) :
  build_block_from_items items1 max1 now1 st = Ok (Some b1, st1) →
  build_block_from_items items2 max2 now2 st1 = Ok (Some b2, st2) →
  ∀ e1 e2 : Entry, e1 ∈ news b1 → e2 ∈ news b2 → link e1 ≠ link e2.
Proof.
  intros H1 H2 e1 e2 He1 He2 Heq.
  destruct (build_marks_broadcast_links items1 max1 now1 st st1 b1 H1 e1 He1)
    as [ts Hts].
  destruct (build_block_order _ _ _ _ _ _ H2) as [_ Hfresh].
  specialize (Hfresh e2 He2). rewrite <-Heq, Hts in Hfresh. done.
Qed.

Lemma build_twice_links_witness :
  ∃ (b1 b2 : Block) (st1 st2 : Storage),
    build_block_from_items [item_A; item_B] 1 sample_now genesis_storage
    = Ok (Some b1, st1)
    ∧ build_block_from_items [item_A; item_B] 1 sample_now st1
      = Ok (Some b2, st2)
    ∧ ∀ e1 e2 : Entry, e1 ∈ news b1 → e2 ∈ news b2 → link e1 ≠ link e2.
Proof.
  destruct (build_block_from_items [item_A; item_B] 1 sample_now
              genesis_storage) as [[[b1|] st1]|e] eqn:E1;
    try (vm_compute in E1; discriminate E1).
  destruct (build_block_from_items [item_A; item_B] 1 sample_now st1)
    as [[[b2|] st2]|e] eqn:E2.
  - exists b1, b2, st1, st2. split; [reflexivity|]. split; [exact E2|].
    exact (build_twice_links _ _ _ _ _ _ _ _ _ _ _ E1 E2).
  - pose proof E1 as E1'. vm_compute in E1'. injection E1' as _ <-.
    vm_compute in E2. discriminate E2.
  - pose proof E1 as E1'. vm_compute in E1'. injection E1' as _ <-.
    vm_compute in E2. discriminate E2.
Defined.

(** ** What [verify_chain] reads *)

Section verify_more.

Lemma verify_from_redact (prev : Block) (rest : list Block) :
  verify_from (redact prev) (map redact rest) = verify_from prev rest.
Proof.
  revert prev. induction rest as [|b rest IH]; intros prev; [done|].
  simpl. by rewrite IH, map_map.
Qed.

Lemma verify_from_adjacent_intro (prev : Block) (rest : list Block) :
  (∀ (i : nat) (a b : Block),
      (prev :: rest) !! i = Some a → (prev :: rest) !! S i = Some b →
      previous b = Some (blockhash a)
      ∧ compute_block_hash (map iHash (news b)) = Ok (blockhash b)) →
  verify_from prev rest = Ok true.
Proof.
  revert prev. induction rest as [|c rest IH]; intros prev Hall; [done|].
  destruct (Hall 0%nat prev c eq_refl eq_refl) as [Hp Hh].
  apply verify_from_true_intro; [done..|].
  apply IH. intros i a b Ha Hb. by apply (Hall (S i)).
Qed.

Lemma verify_from_with_blockhash (prev b : Block) (rest : list Block)
    (j : nat) (h : pystr) :
  verify_from prev rest = Ok true →
  rest !! j = Some b → h ≠ blockhash b →
  verify_from prev (alter (fun b => with_blockhash b h) j rest) = Ok false.
Proof.
  revert prev j. induction rest as [|c rest IH]; intros prev j Hv Hj Hne; [done|].
  apply verify_from_true_inv in Hv as (Hc1 & Hc2 & Hv).
  destruct j as [|j]; simpl in Hj.
  - injection Hj as ->. simpl.
    rewrite decide_False by (intros Hn; by apply Hn).
    rewrite Hc2. simpl. by rewrite decide_True by done.
  - simpl. rewrite Hc2. simpl.
    rewrite decide_False by (intros Hn; by apply Hn).
    rewrite decide_False by (intros Hn; by apply Hn).
    by apply (IH c j).
Qed.

End verify_more.

(** X15 — [verify_chain] reads the [blockhash] and [previous] of the
    blocks and the iHash of their entries, nothing else: erasing every
    block number and timestamp and the title, link, source, date and
    summary of every entry leaves its result as it was. *)
Theorem verify_chain_redact (bs : list Block) :
  verify_chain (map redact bs) = verify_chain bs.
Proof. destruct bs as [|g rest]; [done|]. apply verify_from_redact. Qed.

(** X16 — an accepted chain is exactly one in which every block after
    the first has [previous] equal to the [blockhash] of the block before
    it and a [blockhash] equal to the recomputed hash of its own iHashes;
    nothing is asked of the first block. *)
Theorem verify_chain_true_iff (bs : list Block) :
  verify_chain bs = Ok true
  ↔ ∀ (i : nat) (a b : Block),
      bs !! i = Some a → bs !! S i = Some b →
      previous b = Some (blockhash a)
      ∧ compute_block_hash (map iHash (news b)) = Ok (blockhash b).
Proof.
  split; [apply verify_chain_adjacent|].
  destruct bs as [|g rest]; [done|]. apply verify_from_adjacent_intro.
Qed.

(** X17 — the stored [blockhash] is tamper-evident once the chain has
    two blocks: on an accepted chain of two or more blocks, replacing the
    [blockhash] of any block, the genesis block included, by another
    value makes [verify_chain] return [False]. *)
Theorem blockhash_tampering_detected (bs : list Block) (i : nat) (b : Block)
    (h : pystr) :
  verify_chain bs = Ok true →
  (2 ≤ length bs)%nat →
  bs !! i = Some b → h ≠ blockhash b →
  verify_chain (alter (fun b => with_blockhash b h) i bs) = Ok false.
Proof.
  intros Hv Hlen Hi Hne. destruct bs as [|g rest]; [done|].
  destruct i as [|j].
  - injection Hi as ->. destruct rest as [|c rest]; [simpl in Hlen; lia|].
    simpl in *. apply verify_from_true_inv in Hv as (Hc1 & _ & _).
    rewrite decide_True; [done|]. rewrite Hc1. congruence.
  - simpl. by apply (verify_from_with_blockhash g b rest j h).
Qed.

Lemma blockhash_tampering_detected_witness :
  verify_chain (alter (fun b => with_blockhash b (py "00")) 0%nat
                  (blocks sample_storage)) = Ok false.
Proof.
  apply (blockhash_tampering_detected (blocks sample_storage) 0 genesis_block
           (py "00")).
  - vm_compute. reflexivity.
  - vm_compute. lia.
  - vm_compute. reflexivity.
  - discriminate.
Defined.

(** ** Statistics *)

Section stats.

(** The tally of a list of sources, one [bump] after the other. *)
Lemma get_stats_tally (bs : list Block) :
  get_stats bs = fold_left (fun acc s => bump s acc) (all_sources bs) [].
Proof.
  unfold get_stats, all_sources. generalize (@nil (pyval * nat)).
  induction bs as [|b bs IH]; intros acc; [done|].
  cbn [fold_left flat_map]. rewrite fold_left_app, IH. f_equal.
  generalize (news b). clear. intros l. revert acc.
  induction l as [|e l IH]; intros acc; [done|]. simpl. apply IH.
Qed.

Lemma bump_keys (s : pyval) (acc : list (pyval * nat)) :
  map fst (bump s acc)
  = if decide (s ∈ map fst acc) then map fst acc else map fst acc ++ [s].
Proof.
  induction acc as [|[k n] acc IH]; simpl.
  - done.
  - destruct (decide (k = s)) as [->|Hne]; simpl.
    + by rewrite decide_True by (by left).
    + rewrite IH. destruct (decide (s ∈ map fst acc)) as [Hin|Hnin].
      * by rewrite decide_True by (by right).
      * rewrite decide_False; [done|].
        intros [?|?]%elem_of_cons; [congruence|done].
Qed.

Lemma bump_NoDup (s : pyval) (acc : list (pyval * nat)) :
  NoDup (map fst acc) → NoDup (map fst (bump s acc)).
Proof.
  intros Hnd. rewrite bump_keys. case_decide as Hin; [done|].
  apply NoDup_app. split; [done|]. split; [|apply NoDup_singleton].
  intros x Hx ->%list_elem_of_singleton. done.
Qed.

Lemma bump_sum (s : pyval) (acc : list (pyval * nat)) :
  sum_list (map snd (bump s acc)) = S (sum_list (map snd acc)).
Proof.
  induction acc as [|[k n] acc IH]; simpl; [done|].
  case_decide; simpl; [lia|]. rewrite IH. lia.
Qed.

Lemma bump_positive (s : pyval) (acc : list (pyval * nat)) :
  Forall (fun kv => (0 < kv.2)%nat) acc →
  Forall (fun kv => (0 < kv.2)%nat) (bump s acc).
Proof.
  induction 1 as [|[k n] acc Hk Hacc IH]; simpl.
  - constructor; [simpl; lia|constructor].
  - case_decide; constructor; simpl in *; try done; lia.
Qed.

Lemma stat_of_bump (k s : pyval) (acc : list (pyval * nat)) :
  stat_of k (bump s acc)
  = (stat_of k acc + if decide (s = k) then 1 else 0)%nat.
Proof.
  unfold stat_of. induction acc as [|[k' n] acc IH]; simpl.
  - rewrite filter_cons, filter_nil. simpl.
    destruct (decide (s = k)); simpl; lia.
  - destruct (decide (k' = s)) as [->|Hne].
    + rewrite !filter_cons. simpl.
      destruct (decide (s = k)); simpl; lia.
    + rewrite !filter_cons. simpl.
      destruct (decide (k' = k)) as [->|?]; simpl; rewrite IH.
      * rewrite decide_False by done. lia.
      * lia.
Qed.

Lemma stat_of_elem_of (k : pyval) (n : nat) (acc : list (pyval * nat)) :
  NoDup (map fst acc) → (k, n) ∈ acc → stat_of k acc = n.
Proof.
  unfold stat_of. induction acc as [|[k' n'] acc IH]; simpl.
  - by intros _ H%elem_of_nil.
  - intros [Hk' Hnd]%NoDup_cons [[= -> ->]|Hin]%elem_of_cons.
    + rewrite filter_cons, decide_True by done. simpl.
      destruct (filter (fun kv => kv.1 = k') acc) as [|[k2 n2] xs] eqn:Ef;
        [simpl; lia|].
      exfalso.
      assert (Hin2 : (k2, n2) ∈ filter (fun kv => kv.1 = k') acc)
        by (rewrite Ef; by left).
      apply list_elem_of_filter in Hin2 as [Heq Hin2]. simpl in Heq. subst k2.
      apply Hk'. by apply (list_elem_of_fmap_2' fst _ (k', n2)).
    + rewrite filter_cons, decide_False; [by apply IH|].
      simpl. intros ->. apply Hk'.
      by apply (list_elem_of_fmap_2' fst _ (k, n)).
Qed.

Lemma stat_of_positive (k : pyval) (acc : list (pyval * nat)) :
  (0 < stat_of k acc)%nat → ∃ n, (k, n) ∈ acc.
Proof.
  unfold stat_of. induction acc as [|[k' n'] acc IH]; simpl; [lia|].
  rewrite filter_cons. simpl. destruct (decide (k' = k)) as [->|Hne].
  - intros _. exists n'. by left.
  - intros [n Hn]%IH. exists n. by right.
Qed.

(** The tally after the sources [l]: distinct keys, and a pair [(k, n)]
    exactly for the sources that occur, with their number of
    occurrences. *)
Lemma tally_spec (l : list pyval) :
  let acc := fold_left (fun acc s => bump s acc) l [] in
  NoDup (map fst acc)
  ∧ Forall (fun kv => (0 < kv.2)%nat) acc
  ∧ (∀ k, stat_of k acc = length (filter (fun s => s = k) l))
  ∧ sum_list (map snd acc) = length l.
Proof.
  induction l as [|s l IH] using rev_ind.
  - simpl. split; [constructor|]. split; [constructor|]. done.
  - rewrite fold_left_app. simpl.
    destruct IH as (Hnd & Hpos & Hst & Hsum).
    set (acc := fold_left (fun acc s => bump s acc) l []) in *.
    split; [by apply bump_NoDup|]. split; [by apply bump_positive|]. split.
    + intros k. rewrite stat_of_bump, Hst, filter_app, length_app.
      rewrite filter_cons, filter_nil. by destruct (decide (s = k)).
    + rewrite bump_sum, Hsum, length_app. simpl. lia.
Qed.

End stats.

Section sort_by_count.

Lemma insert_by_count_Permutation (x : pyval * nat) (l : list (pyval * nat)) :
  insert_by_count x l ≡ₚ x :: l.
Proof.
  induction l as [|y l IH]; simpl; [done|].
  case_decide; [done|]. rewrite IH. apply Permutation_swap.
Qed.

Lemma sort_by_count_Permutation (l : list (pyval * nat)) :
  sort_by_count l ≡ₚ l.
Proof.
  induction l as [|x l IH]; simpl; [done|].
  by rewrite insert_by_count_Permutation, IH.
Qed.

Lemma insert_by_count_sorted (x : pyval * nat) (l : list (pyval * nat)) :
  StronglySorted count_ge l → StronglySorted count_ge (insert_by_count x l).
Proof.
  induction l as [|y l IH]; simpl; intros Hs.
  - repeat constructor.
  - apply StronglySorted_cons in Hs as [Hy Hs]. case_decide as Hle.
    + apply StronglySorted_cons. split.
      * constructor; [done|]. eapply Forall_impl; [exact Hy|].
        unfold count_ge. intros z Hz. lia.
      * by apply StronglySorted_cons.
    + apply StronglySorted_cons. split; [|by apply IH].
      rewrite insert_by_count_Permutation. constructor; [|done].
      unfold count_ge. lia.
Qed.

Lemma sort_by_count_sorted (l : list (pyval * nat)) :
  StronglySorted count_ge (sort_by_count l).
Proof.
  induction l as [|x l IH]; simpl; [constructor|].
  by apply insert_by_count_sorted.
Qed.

Lemma insert_by_count_filter (c : nat) (x : pyval * nat)
    (l : list (pyval * nat)) :
  filter (fun kv => kv.2 = c) (insert_by_count x l)
  = filter (fun kv => kv.2 = c) (x :: l).
Proof.
  induction l as [|y l IH]; simpl; [done|].
  case_decide as Hle; [done|].
  rewrite (filter_cons _ y), IH, !(filter_cons _ x), (filter_cons _ y).
  destruct (decide (y.2 = c)), (decide (x.2 = c)); try done. lia.
Qed.

End sort_by_count.

(** X18 — [get_stats] counts: its keys are pairwise distinct, a source
    is a key exactly when some entry of the ledger has it, its value is
    the number of entries with that source, and the values add up to the
    number of entries of the ledger. *)
Theorem get_stats_counts (bs : list Block) :
  NoDup (map fst (get_stats bs))
  ∧ (∀ (k : pyval) (n : nat),
       (k, n) ∈ get_stats bs
       ↔ n = length (filter (fun e => source e = k) (flat_map news bs))
         ∧ (0 < n)%nat)
  ∧ total_entries bs = length (flat_map news bs).
Proof.
  assert (Hsrc : all_sources bs = map source (flat_map news bs)).
  { unfold all_sources. induction bs as [|b bs IH]; [done|].
    cbn [flat_map]. by rewrite map_app, IH. }
  assert (Hcount : ∀ k (l : list Entry),
             length (filter (fun s => s = k) (map source l))
             = length (filter (fun e => source e = k) l)).
  { intros k l. induction l as [|e l IH]; [done|]. simpl.
    rewrite !filter_cons. destruct (decide (source e = k)); simpl; by rewrite IH. }
  unfold total_entries. rewrite get_stats_tally.
  destruct (tally_spec (all_sources bs)) as (Hnd & Hpos & Hst & Hsum).
  split; [done|]. split.
  - intros k n. rewrite <-Hcount, <-Hsrc, <-Hst. split.
    + intros Hin. split; [by rewrite (stat_of_elem_of k n _ Hnd Hin)|].
      rewrite Forall_forall in Hpos. by apply (Hpos (k, n)).
    + intros [-> Hp]. destruct (stat_of_positive _ _ Hp) as [m Hm].
      by rewrite (stat_of_elem_of k m _ Hnd Hm).
  - by rewrite Hsum, Hsrc, length_map.
Qed.

(** X19 — the rows of the [/stats] reply: at most ten pairs of
    [get_stats], in order of non-increasing count, every source left out
    counting no more than any row; sources with the same count stay in
    the order in which the ledger first shows them. *)
Theorem top_sources_rows (bs : list Block) :
  (length (top_sources bs) ≤ 10)%nat
  ∧ top_sources bs ⊆ get_stats bs
  ∧ StronglySorted count_ge (top_sources bs)
  ∧ (∀ kv r, kv ∈ get_stats bs → kv ∉ top_sources bs → r ∈ top_sources bs →
       (kv.2 ≤ r.2)%nat)
  ∧ (∀ c : nat,
       filter (fun kv => kv.2 = c) (sort_by_count (get_stats bs))
       = filter (fun kv => kv.2 = c) (get_stats bs)).
Proof.
  unfold top_sources. set (l := get_stats bs). clearbody l.
  pose proof (sort_by_count_sorted l) as Hs.
  pose proof (sort_by_count_Permutation l) as Hp.
  rewrite <-(take_drop 10 (sort_by_count l)) in Hs.
  split; [rewrite length_take; lia|]. split.
  { intros x Hx. rewrite <-Hp. by apply (subseteq_take 10). }
  split; [by apply StronglySorted_app_1_l in Hs|]. split.
  - intros kv r Hkv Hn Hr. rewrite <-Hp, <-(take_drop 10 (sort_by_count l)) in Hkv.
    apply elem_of_app in Hkv as [Hkv|Hkv]; [done|].
    by apply (StronglySorted_app_1_elem_of _ _ _ r kv Hs).
  - intros c. induction l as [|x l IH]; [done|]. simpl.
    rewrite insert_by_count_filter, !(filter_cons _ x).
    assert (Hl : filter (fun kv => kv.2 = c) (sort_by_count l)
                 = filter (fun kv => kv.2 = c) l).
    { clear -l. induction l as [|y l IH]; [done|]. simpl.
      by rewrite insert_by_count_filter, !(filter_cons _ y), IH. }
    by rewrite Hl.
Qed.

(** ** Restarting *)

(** X20 — loading again what a start left, at a later clock reading,
    gives what a single start at the later reading gives: the history is
    pruned to the later cutoff, the queue is as loaded, and a ledger
    seeded with the genesis block is not seeded again. *)
Theorem init_storage_again (loaded : Storage) (cutoff cutoff' : pystr) :
  pystr_le cutoff cutoff' →
  init_storage (init_storage loaded cutoff) cutoff'
  = init_storage loaded cutoff'.
Proof.
  intros Hle. unfold init_storage. cbn [sent_news pending blocks]. f_equal.
  - apply map_filter_filter_l. intros k v _ Hv. cbn [snd] in *.
    by apply (pystr_le_trans cutoff cutoff' v).
  - destruct (blocks loaded) as [|b bs]; [|reflexivity].
    rewrite create_genesis_block_ok. reflexivity.
Qed.

Lemma init_storage_again_witness :
  init_storage (init_storage aged_storage sample_cutoff)
    (py "2025-11-01T10:00:05.000000")
  = init_storage aged_storage (py "2025-11-01T10:00:05.000000").
Proof.
  apply (init_storage_again aged_storage sample_cutoff
           (py "2025-11-01T10:00:05.000000")).
  vm_compute. reflexivity.
Defined.

(** ** Mining *)

Section mining.

(** A scan that starts on a candidate whose link is not in the history
    and comes to an end has stored that candidate first. *)
Lemma select_items_first_fresh (sent : gmap pyval pystr) (max_news : Z)
    (it : Item) (rest : list Item) (lnk : pyval)
    (sel' : list Entry) (ihs' : list pystr) :
  i_link it = Some lnk → sent !! lnk = None →
  select_items sent max_news (it :: rest) [] [] = Ok (sel', ihs') →
  ∃ (e : Entry) (new : list Entry),
    sel' = e :: new ∧ link e = lnk ∧ made_from it e.
Proof.
  intros Hl Hs H. simpl in H. rewrite Hl in H. simpl in H. rewrite Hs in H.
  destruct (i_title it) as [t|] eqn:Et; simpl in H; [|done].
  destruct (i_source it) as [s|] eqn:Eso; simpl in H; [|done].
  destruct (i_published it) as [p|] eqn:Ep; simpl in H; [|done].
  destruct (create_iHash t lnk s p) as [ih|] eqn:Eh; simpl in H; [|done].
  destruct t as [t|]; simpl in H; [|done].
  destruct (slice_to 300 (get_default (i_summary it))) as [s300|] eqn:E3;
    simpl in H; [|done].
  set (e := {| title := Some (take 280 t); link := lnk; source := s;
               published := p; summary := s300; iHash := ih |}) in *.
  assert (Hm : made_from it e) by (exists t, s, p; done).
  case_decide as Hmax.
  - injection H as <- <-. by exists e, [].
  - apply select_items_sublist in H as (chosen & new & -> & _ & _).
    by exists e, new.
Qed.

Lemma fresh_items_spec (st : Storage) (rss_items fresh : list Item) :
  fresh_items st rss_items = Ok fresh →
  (∀ it, it ∈ fresh →
     ∃ lnk, i_link it = Some lnk ∧ sent_news st !! lnk = None
            ∧ pending st !! lnk = None)
  ∧ (fresh = [] →
     ∀ it, it ∈ rss_items →
       ∃ lnk, i_link it = Some lnk
              ∧ (is_Some (sent_news st !! lnk) ∨ is_Some (pending st !! lnk))).
Proof.
  revert fresh. induction rss_items as [|it rest IH]; intros fresh H.
  - simpl in H. injection H as <-. split; intros; by set_solver.
  - simpl in H.
    destruct (i_link it) as [lnk|] eqn:El; simpl in H; [|done].
    destruct (sent_news st !! lnk) as [ts|] eqn:Es.
    + destruct (IH _ H) as [H1 H2]. split; [done|].
      intros Hf x [->|Hx]%elem_of_cons; [|by apply H2].
      exists lnk. split; [done|]. left. by eexists.
    + destruct (pending st !! lnk) as [pe|] eqn:Ep.
      * destruct (IH _ H) as [H1 H2]. split; [done|].
        intros Hf x [->|Hx]%elem_of_cons; [|by apply H2].
        exists lnk. split; [done|]. right. by eexists.
      * destruct (fresh_items st rest) as [kept|] eqn:Ek; simpl in H; [|done].
        injection H as <-. destruct (IH _ eq_refl) as [H1 _]. split; [|done].
        intros x [->|Hx]%elem_of_cons; [|by apply H1].
        by exists lnk.
Qed.

End mining.

(** X21 — when nothing in the queue is in the history, [/mine] finds
    "insufficient new data" only if the queue is empty and every fetched
    item has a link that is already in the history or queued; the
    storage is then unchanged. *)
Theorem mine_no_block (queue : list (pyval * PendingEntry))
    (rss_items : list Item) (now : pystr) (st st' : Storage) :
  queues_disjoint st →
  (∀ kv, kv ∈ queue → is_Some (pending st !! kv.1)) →
  mine queue rss_items now st = Ok (None, st') →
  queue = [] ∧ st' = st
  ∧ ∀ it, it ∈ rss_items →
      ∃ lnk, i_link it = Some lnk
             ∧ (is_Some (sent_news st !! lnk) ∨ is_Some (pending st !! lnk)).
Proof.
  intros Hd Hq H. unfold mine in H.
  destruct (fresh_items st rss_items) as [fresh|] eqn:Ef; simpl in H; [|done].
  destruct (fresh_items_spec _ _ _ Ef) as [Hfresh Hnone].
  pose proof (build_None_inv _ _ _ _ _ H) as ->.
  assert (Hcs : map pending_candidate queue ++ fresh = []).
  { destruct (map pending_candidate queue ++ fresh) as [|c cs] eqn:Ec; [done|].
    exfalso.
    assert (Hc : ∃ lnk, i_link c = Some lnk ∧ sent_news st !! lnk = None).
    { destruct queue as [|kv queue]; simpl in Ec.
      - destruct (Hfresh c) as (lnk & ? & ? & ?); [rewrite Ec; by left|].
        by exists lnk.
      - injection Ec as <- _. exists kv.1. split; [done|].
        apply Hd, Hq. by left. }
    destruct Hc as (lnk & Hl & Hs).
    unfold build_block_from_items in H.
    destruct (select_items _ _ _ _ _) as [[sel ihs]|] eqn:Es; simpl in H; [|done].
    destruct (select_items_first_fresh _ _ _ _ _ _ _ Hl Hs Es)
      as (e & new & -> & _).
    by destruct (compute_block_hash ihs). }
  apply app_eq_nil in Hcs as [Hq0 Hf0].
  split; [by destruct queue|]. split; [done|]. by apply Hnone.
Qed.

Lemma mine_no_block_witness :
  mine [] [item_A; item_A2] sample_now broadcast_storage
  = Ok (None, broadcast_storage)
  ∧ ∀ it, it ∈ [item_A; item_A2] →
      ∃ lnk, i_link it = Some lnk
             ∧ (is_Some (sent_news broadcast_storage !! lnk)
                ∨ is_Some (pending broadcast_storage !! lnk)).
Proof.
  assert (E : mine [] [item_A; item_A2] sample_now broadcast_storage
              = Ok (None, broadcast_storage)) by (vm_compute; reflexivity).
  split; [exact E|].
  assert (Hd : queues_disjoint broadcast_storage).
  { intros k [x Hx]. unfold broadcast_storage in Hx. simpl in Hx.
    by rewrite lookup_empty in Hx. }
  apply (mine_no_block [] [item_A; item_A2] sample_now broadcast_storage
           broadcast_storage Hd); [|exact E].
  intros kv Hkv. by apply elem_of_nil in Hkv.
Defined.

(** X22 — queued links come first: when nothing in the queue is in the
    history and [/mine] returns a block, the first entry of the block is
    made from the first queued link. *)
Theorem mine_queue_first (kv : pyval * PendingEntry)
    (queue : list (pyval * PendingEntry)) (rss_items : list Item)
    (now : pystr) (st st' : Storage) (b : Block) :
  queues_disjoint st →
  is_Some (pending st !! kv.1) →
  mine (kv :: queue) rss_items now st = Ok (Some b, st') →
  ∃ (e : Entry) (others : list Entry),
    news b = e :: others ∧ link e = kv.1
    ∧ made_from (pending_candidate kv) e.
Proof.
  intros Hd Hk H. unfold mine in H.
  destruct (fresh_items st rss_items) as [fresh|] eqn:Ef; simpl in H; [|done].
  apply build_Some_inv in H as (sel & ihs & Hs & _ & _ & -> & _).
  apply (select_items_first_fresh _ _ _ _ kv.1) in Hs; [done|done|].
  by apply Hd.
Qed.

Lemma mine_queue_first_witness :
  ∃ (b : Block) (st' : Storage) (e : Entry) (others : list Entry),
    mine submitted_queue [item_B; item_A2] sample_now submitted_storage
    = Ok (Some b, st')
    ∧ news b = e :: others ∧ link e = Some (py "https://a.example/1").
Proof.
  destruct (mine submitted_queue [item_B; item_A2] sample_now
              submitted_storage) as [[[b|] st']|e] eqn:E;
    try (vm_compute in E; discriminate E).
  pose proof submitted_storage_disjoint as Hd.
  assert (Hk : is_Some (pending submitted_storage
                          !! Some (py "https://a.example/1")))
    by (eexists; vm_compute; reflexivity).
  destruct (mine_queue_first
              (Some (py "https://a.example/1"), submitted_entry) []
              [item_B; item_A2] sample_now submitted_storage st' b Hd Hk E)
    as (e & others & Hn & Hl & _).
  exists b, st', e, others. split; [reflexivity|]. split; [exact Hn|exact Hl].
Defined.

(** ** Candidates that cannot fail *)

Section well_formed.

Lemma select_items_sliceable (sent : gmap pyval pystr) (max_news : Z)
    (items : list Item) (sel : list Entry) (ihs : list pystr) :
  Forall (fun it => sliceable it ∧ Forall scalar (hashed_text it)) items →
  ∃ r, select_items sent max_news items sel ihs = Ok r.
Proof.
  intros Hall. revert sel ihs.
  induction Hall as [|it rest [Hit Hsc] _ IH]; intros sel ihs; [by eexists|].
  destruct Hit as ([t Ht] & [lnk Hl] & [s Hs] & [p Hp] & Hsm).
  unfold hashed_text in Hsc. rewrite Ht, Hl, Hs, Hp in Hsc. simpl in Hsc.
  simpl. rewrite Hl. simpl. destruct (sent !! lnk); [apply IH|].
  rewrite Ht. simpl. rewrite Hs. simpl. rewrite Hp. simpl.
  destruct (create_iHash_outcome (Some t) lnk s p) as [Hok _].
  destruct (Hok Hsc) as (ih & -> & _). simpl.
  case_decide; [apply IH|].
  destruct (i_summary it) as [[sm|]|]; [|done|]; simpl;
    (case_decide; [by eexists|apply IH]).
Qed.

End well_formed.

(** X23 — a build cannot fail on candidates that carry the four hashed
    keys, a title that is a [str], a summary that is a [str] or absent,
    and text of Unicode scalar values only: it returns a block or
    [None]. *)
Theorem build_sliceable (items : list Item) (max_news : Z) (now : pystr)
    (st : Storage) :
  Forall (fun it => sliceable it ∧ Forall scalar (hashed_text it)) items →
  ∃ r, build_block_from_items items max_news now st = Ok r.
Proof.
  intros Hall.
  destruct (build_block_from_items items max_news now st) as [r|e] eqn:E;
    [by eexists|].
  apply build_raises_in_selection in E.
  destruct (select_items_sliceable (sent_news st) max_news items [] [] Hall)
    as [r Hr].
  by rewrite Hr in E.
Qed.

Lemma build_sliceable_witness :
  ∃ r, build_block_from_items [item_A; item_long] 5 sample_now genesis_storage
       = Ok r.
Proof.
  apply build_sliceable. repeat constructor; try (by eexists); try done;
    apply utf8_encode_scalar; eexists; vm_compute; reflexivity.
Defined.

Section fetched.







End fetched.


